(** * pyfaf.opsys.fedora: the Fedora operating-system plugin of faf

    A shallow embedding of [src/pyfaf/opsys/fedora.py] and the properties of
    its report-package reconciliation, policy validation, release-to-branch
    mapping and build merging.

    Conventions of the embedding
    - Python [str] is [string]; a character is read as the Unicode code point
      of the same number, so the texts covered are those over U+0000..U+00FF.
    - Python [int] is [Z].
    - An exception is a value of [exn]; code that can raise returns a
      [result]; code that works on the database session runs in the monad
      [M], which keeps the state reached when an exception is raised.
    - A table of the storage is the list of its rows in insertion order; a
      query ending in [.first()] is [find]. *)

From Stdlib Require Import ZArith List String Ascii Bool Lia.
From Stdlib Require Import Permutation Sorted DecimalString DecimalZ DecimalPos.
Import ListNotations.

Open Scope string_scope.
Open Scope Z_scope.

(** ** Exceptions and results *)

Inductive exn : Type :=
| FafError (msg : string)      (* pyfaf.common.FafError *)
| CheckError (msg : string)    (* raised by the pyfaf.checker classes *)
| KeyError (key : string)      (* dict subscript on a missing key *)
| ValueError (msg : string).   (* int() and strptime() on bad text *)

Inductive result (A : Type) : Type :=
| Ok (a : A)
| Raise (e : exn).

Arguments Ok {A} a.
Arguments Raise {A} e.

Definition is_Ok {A} (r : result A) : bool :=
  match r with Ok _ => true | Raise _ => false end.

(** ** Python text operations *)

Module PyStr.

Definition code (c : ascii) : N := N_of_ascii c.

Definition in_range (lo hi : N) (c : ascii) : bool :=
  ((lo <=? code c) && (code c <=? hi))%N.

(** The ten ASCII digits: the only decimal characters below U+0100. *)
Definition is_decimal_char (c : ascii) : bool := in_range 48 57 c.

(** U+00B2, U+00B3 and U+00B9 (superscript two, three and one): digits
    for [str.isdigit], not decimal characters. *)
Definition is_superscript_digit (c : ascii) : bool :=
  ((code c =? 178) || (code c =? 179) || (code c =? 185))%N.

Definition char_isdigit (c : ascii) : bool :=
  is_decimal_char c || is_superscript_digit c.

Fixpoint all_chars (f : ascii -> bool) (s : string) : bool :=
  match s with
  | EmptyString => true
  | String c s' => f c && all_chars f s'
  end.

Definition nonempty (s : string) : bool :=
  match s with EmptyString => false | String _ _ => true end.

(** [str.isdigit()]: at least one character and all of them digits. *)
Definition isdigit (s : string) : bool := nonempty s && all_chars char_isdigit s.

(** [str.isdecimal()] *)
Definition isdecimal (s : string) : bool := nonempty s && all_chars is_decimal_char s.

(** [str.lower()]: A..Z, and U+00C0..U+00DE but for the multiplication
    sign U+00D7, move 32 code points up. *)
Definition is_upper_char (c : ascii) : bool :=
  in_range 65 90 c || in_range 192 214 c || in_range 216 222 c.

Definition char_lower (c : ascii) : ascii :=
  if is_upper_char c then ascii_of_N (code c + 32) else c.

Fixpoint lower (s : string) : string :=
  match s with
  | EmptyString => EmptyString
  | String c s' => String (char_lower c) (lower s')
  end.

Definition digit_value (c : ascii) : Z := Z.of_N (code c) - 48.

Fixpoint decimal_value (acc : Z) (s : string) : Z :=
  match s with
  | EmptyString => acc
  | String c s' => decimal_value (10 * acc + digit_value c) s'
  end.

(** The interpreter's limit on the decimal digits of an [int] that is read
    from, or written to, a text: 4300 unless configured otherwise. *)
Definition max_str_digits : nat := 4300.

(** The decimal digits of an [int], with the sign of a negative one: the
    text that [str(n)] and ["{0}".format(n)] give for a number within the
    limit. *)
Definition str_of_int (n : Z) : string := NilZero.string_of_int (Z.to_int n).

(** [int(s)] on a text without sign, blank or underscore, which is every
    text that reaches it behind [isdigit]: the value of the decimal
    digits; [ValueError] on anything else, and on more digits than the
    limit (leading zeros count). *)
Definition int_of_str (s : string) : result Z :=
  if isdecimal s then
    if (String.length s <=? max_str_digits)%nat then Ok (decimal_value 0 s)
    else Raise (ValueError
                  ("Exceeds the limit (4300 digits) for integer string conversion: value has "
                   ++ str_of_int (Z.of_nat (String.length s))
                   ++ " digits; use sys.set_int_max_str_digits() to increase the limit"))
  else Raise (ValueError ("invalid literal for int() with base 10: '" ++ s ++ "'")).

(** [str(n)] for an [int]: [ValueError] for a number of more digits, the
    sign apart, than the limit. *)
Definition str (n : Z) : result string :=
  if (String.length (str_of_int (Z.abs n)) <=? max_str_digits)%nat then Ok (str_of_int n)
  else Raise (ValueError
                ("Exceeds the limit (4300 digits) for integer string conversion; "
                 ++ "use sys.set_int_max_str_digits() to increase the limit")).

End PyStr.

(** ** Release to branch *)

(** The argument of [_release_to_branch]: a [str], or something else that
    [str()] turns into one (an [int] here). *)
Inductive release_arg : Type :=
| RelStr (s : string)
| RelInt (n : Z).

Definition release_text (release : release_arg) : result string :=
  match release with
  | RelStr s => Ok s
  | RelInt n => PyStr.str n
  end.

(** Lines 333-354. [int_release] has been read from a text within the limit
    of digits, so that formatting it gives its digits. *)
Definition _release_to_branch (release : release_arg) : result string :=
  match release_text release with
  | Raise e => Raise e
  | Ok release =>
      if (PyStr.lower release =? "rawhide")%string then Ok "rawhide"
      else if PyStr.isdigit release then
        match PyStr.int_of_str release with
        | Raise e => Raise e
        | Ok int_release =>
            if int_release <? 6 then Ok ("FC-" ++ PyStr.str_of_int int_release)
            else if int_release =? 6 then Ok ("fc" ++ PyStr.str_of_int int_release)
            else Ok ("f" ++ PyStr.str_of_int int_release)
        end
      else Raise (FafError (release ++ " is not a valid Fedora version"))
  end.

(** ** The storage *)

(** The rows of the tables this module reads and writes. A report is known
    here by its primary key. *)

Record Arch : Type := { arch_id : Z; arch_name : string }.

(** Modelled from the spec: a [Package] of the catalog with the build and
    architecture it joins, which is the identity (name, epoch, version,
    release, architecture) that [get_package_by_nevra] matches. *)
Record Package : Type := {
  pkg_id : Z;
  pkg_name : string;
  pkg_epoch : Z;
  pkg_version : string;
  pkg_release : string;
  pkg_arch : string
}.

Record OsRelease : Type := { osr_id : Z; osr_opsys : string; osr_version : string }.

Record ReportPackage : Type := {
  rp_report : Z;
  rp_installed_package : Package;
  rp_count : Z;
  rp_type : string
}.

Record ReportUnknownPackage (semver : Type) : Type := {
  up_report : Z;
  up_name : string;
  up_epoch : Z;
  up_version : string;
  up_release : string;
  up_semver : semver;
  up_semrel : semver;
  up_arch : Arch;
  up_type : string;
  up_count : Z
}.

Arguments up_report {semver} _.
Arguments up_name {semver} _.
Arguments up_epoch {semver} _.
Arguments up_version {semver} _.
Arguments up_release {semver} _.
Arguments up_semver {semver} _.
Arguments up_semrel {semver} _.
Arguments up_arch {semver} _.
Arguments up_type {semver} _.
Arguments up_count {semver} _.

Record ReportReleaseDesktop : Type := {
  rrd_report : Z;
  rrd_release : OsRelease;
  rrd_desktop : string;
  rrd_count : Z
}.

Record DB (semver : Type) : Type := {
  packages : list Package;
  archs : list Arch;
  osreleases : list OsRelease;
  reportpackages : list ReportPackage;
  reportunknownpackages : list (ReportUnknownPackage semver);
  reportreleasedesktops : list ReportReleaseDesktop
}.

Arguments packages {semver} _.
Arguments archs {semver} _.
Arguments osreleases {semver} _.
Arguments reportpackages {semver} _.
Arguments reportunknownpackages {semver} _.
Arguments reportreleasedesktops {semver} _.

(** What a call can change: the tables, the warnings logged so far (oldest
    first) and the number of [db.session.flush()] calls. *)
Record World (semver : Type) : Type := {
  db : DB semver;
  warnings : list string;
  flushes : nat
}.

Arguments db {semver} _.
Arguments warnings {semver} _.
Arguments flushes {semver} _.

(** One entry of the package list of a uReport, after [packages_checker]:
    the five mandatory keys, and ["package_role"] when the dict has it. The
    epoch is an [int] in the range of the integer column of the storage,
    with which the queries compare it. *)
Record package : Type := {
  p_name : string;
  p_epoch : Z;
  p_version : string;
  p_release : string;
  p_architecture : string;
  p_package_role : option string
}.

(** The keys of the uReport dict that this module reads; [None] is a key
    the dict does not have. *)
Record ureport : Type := {
  u_desktop : option string;
  u_version : option string
}.

(** [self]: the configuration this module's claims depend on. *)
Record Fedora : Type := { allow_unpackaged : bool }.

Definition nice_name : string := "Fedora".

Definition pkg_roles : list string := ["affected"; "related"; "selinux_policy"].

(** The row found by a query is the first that matches; [x.count += n] on it
    changes that row where it stands. *)
Fixpoint update_first {A : Type} (f : A -> bool) (g : A -> A) (l : list A) : list A :=
  match l with
  | [] => []
  | x :: l' => if f x then g x :: l' else x :: update_first f g l'
  end.

Section Session.

Context {semver : Type}.

(** [pyfaf.storage.custom_types.to_semver]: not part of this module. *)
Variable to_semver : string -> semver.

#[local] Abbreviation DB := (DB semver).
#[local] Abbreviation World := (World semver).
#[local] Abbreviation ReportUnknownPackage := (ReportUnknownPackage semver).

(** *** The monad of the session *)

Definition M (A : Type) : Type := World -> result A * World.

Definition ret {A} (a : A) : M A := fun w => (Ok a, w).

Definition bind {A B} (m : M A) (k : A -> M B) : M B :=
  fun w => match m w with
           | (Ok a, w') => k a w'
           | (Raise e, w') => (Raise e, w')
           end.

Definition raise {A} (e : exn) : M A := fun w => (Raise e, w).

Definition lift {A} (r : result A) : M A := fun w => (r, w).

Definition query {A} (q : DB -> A) : M A := fun w => (Ok (q (db w)), w).

Definition modify (f : DB -> DB) : M unit :=
  fun w => (Ok tt, {| db := f (db w); warnings := warnings w; flushes := flushes w |}).

Definition log_warn (msg : string) : M unit :=
  fun w => (Ok tt, {| db := db w; warnings := warnings w ++ [msg]; flushes := flushes w |}).

Definition session_flush : M unit :=
  fun w => (Ok tt, {| db := db w; warnings := warnings w; flushes := S (flushes w) |}).

(** [d[key]] on a dict whose key may be missing. *)
Definition subscript {A} (key : string) (v : option A) : M A :=
  match v with
  | Some x => ret x
  | None => raise (KeyError key)
  end.

Definition exec {A} (m : M A) (w : World) : World := snd (m w).
Definition outcome {A} (m : M A) (w : World) : result A := fst (m w).

End Session.

Declare Scope session_scope.
Delimit Scope session_scope with session.
Notation "x <- m ;; k" := (bind m (fun x => k))
  (at level 61, m at next level, right associativity) : session_scope.
Notation "m ;; k" := (bind m (fun _ => k))
  (at level 61, right associativity) : session_scope.

Open Scope session_scope.

(** ** Queries *)

(** Modelled from the spec: the functions of [pyfaf.queries], which this
    module imports. Each returns the first row with the given key, or
    [None]: [findPackageByIdentity], [findArchitectureByName],
    [findReleaseByNameAndVersion], and the lookups behind the three
    find-or-create operations. *)

Section Queries.

Context {semver : Type}.

Definition nevra_matches (name : string) (epoch : Z) (version release arch : string)
    (p : Package) : bool :=
  (pkg_name p =? name)%string && (pkg_epoch p =? epoch) &&
  (pkg_version p =? version)%string && (pkg_release p =? release)%string &&
  (pkg_arch p =? arch)%string.

Definition get_package_by_nevra (d : DB semver) (name : string) (epoch : Z)
    (version release arch : string) : option Package :=
  find (nevra_matches name epoch version release arch) (packages d).

Definition get_arch_by_name (d : DB semver) (name : string) : option Arch :=
  find (fun a => (arch_name a =? name)%string) (archs d).

Definition get_osrelease (d : DB semver) (opsys version : string) : option OsRelease :=
  find (fun r => (osr_opsys r =? opsys)%string && (osr_version r =? version)%string)
       (osreleases d).

Definition reportpackage_matches (db_report : Z) (db_package : Package)
    (rp : ReportPackage) : bool :=
  (rp_report rp =? db_report) && (pkg_id (rp_installed_package rp) =? pkg_id db_package).

Definition get_reportpackage (d : DB semver) (db_report : Z) (db_package : Package)
    : option ReportPackage :=
  find (reportpackage_matches db_report db_package) (reportpackages d).

Definition unknown_matches (db_report : Z) (role name : string) (epoch : Z)
    (version release arch : string) (u : ReportUnknownPackage semver) : bool :=
  (up_report u =? db_report) && (up_type u =? role)%string &&
  (up_name u =? name)%string && (up_epoch u =? epoch) &&
  (up_version u =? version)%string && (up_release u =? release)%string &&
  (arch_name (up_arch u) =? arch)%string.

Definition get_unknown_package (d : DB semver) (db_report : Z) (role name : string)
    (epoch : Z) (version release arch : string) : option (ReportUnknownPackage semver) :=
  find (unknown_matches db_report role name epoch version release arch)
       (reportunknownpackages d).

Definition reldesktop_matches (db_report : Z) (db_release : OsRelease) (desktop : string)
    (r : ReportReleaseDesktop) : bool :=
  (rrd_report r =? db_report) && (osr_id (rrd_release r) =? osr_id db_release) &&
  (rrd_desktop r =? desktop)%string.

Definition get_report_release_desktop (d : DB semver) (db_report : Z)
    (db_release : OsRelease) (desktop : string) : option ReportReleaseDesktop :=
  find (reldesktop_matches db_report db_release desktop) (reportreleasedesktops d).

(** *** Writes of the session *)

Definition with_reportpackages (d : DB semver) (l : list ReportPackage) : DB semver :=
  {| packages := packages d; archs := archs d; osreleases := osreleases d;
     reportpackages := l;
     reportunknownpackages := reportunknownpackages d;
     reportreleasedesktops := reportreleasedesktops d |}.

Definition with_reportunknownpackages (d : DB semver)
    (l : list (ReportUnknownPackage semver)) : DB semver :=
  {| packages := packages d; archs := archs d; osreleases := osreleases d;
     reportpackages := reportpackages d;
     reportunknownpackages := l;
     reportreleasedesktops := reportreleasedesktops d |}.

Definition with_reportreleasedesktops (d : DB semver)
    (l : list ReportReleaseDesktop) : DB semver :=
  {| packages := packages d; archs := archs d; osreleases := osreleases d;
     reportpackages := reportpackages d;
     reportunknownpackages := reportunknownpackages d;
     reportreleasedesktops := l |}.

Definition rp_add_count (count : Z) (rp : ReportPackage) : ReportPackage :=
  {| rp_report := rp_report rp; rp_installed_package := rp_installed_package rp;
     rp_count := rp_count rp + count; rp_type := rp_type rp |}.

Definition up_add_count (count : Z) (u : ReportUnknownPackage semver)
    : ReportUnknownPackage semver :=
  {| up_report := up_report u; up_name := up_name u; up_epoch := up_epoch u;
     up_version := up_version u; up_release := up_release u;
     up_semver := up_semver u; up_semrel := up_semrel u; up_arch := up_arch u;
     up_type := up_type u; up_count := up_count u + count |}.

Definition rrd_add_count (count : Z) (r : ReportReleaseDesktop) : ReportReleaseDesktop :=
  {| rrd_report := rrd_report r; rrd_release := rrd_release r;
     rrd_desktop := rrd_desktop r; rrd_count := rrd_count r + count |}.

End Queries.

(** ** The package reconciler *)

Section Reconciler.

Context {semver : Type}.
Variable to_semver : string -> semver.

(** Lines 132-137: the role stored with the row. *)
Definition role_of (package : package) : string :=
  match p_package_role package with
  | Some package_role =>
      if (package_role =? "affected")%string then "CRASHED"
      else if (package_role =? "selinux_policy")%string then "SELINUX_POLICY"
      else "RELATED"
  | None => "RELATED"
  end.

Definition not_found_message (package : package) : string :=
  "Package " ++ p_name package ++ "-" ++ PyStr.str_of_int (p_epoch package) ++ ":" ++
  p_version package ++ "-" ++ p_release package ++ "." ++ p_architecture package ++
  " not found in storage".

(** A row is created with count 0, added to the session and then
    incremented: the table receives it with [0 + count]. *)
Definition new_unknown_package (db_report : Z) (package : package) (db_arch : Arch)
    (role : string) (count : Z) : ReportUnknownPackage semver :=
  {| up_report := db_report;
     up_name := p_name package;
     up_epoch := p_epoch package;
     up_version := p_version package;
     up_release := p_release package;
     up_semver := to_semver (p_version package);
     up_semrel := to_semver (p_release package);
     up_arch := db_arch;
     up_type := role;
     up_count := 0 + count |}.

Definition new_reportpackage (db_report : Z) (db_package : Package) (role : string)
    (count : Z) : ReportPackage :=
  {| rp_report := db_report;
     rp_installed_package := db_package;
     rp_count := 0 + count;
     rp_type := role |}.

(** The body of the loop of [_save_packages]. *)
Definition save_package (db_report : Z) (count : Z) (package : package) : M unit :=
  let role := role_of package in
  db_package <- query (fun d : DB semver =>
                  get_package_by_nevra d (p_name package) (p_epoch package)
                    (p_version package) (p_release package) (p_architecture package)) ;;
  match db_package with
  | None =>
      log_warn (not_found_message package) ;;
      db_unknown_pkg <- query (fun d : DB semver =>
                          get_unknown_package d db_report role (p_name package)
                            (p_epoch package) (p_version package) (p_release package)
                            (p_architecture package)) ;;
      match db_unknown_pkg with
      | None =>
          db_arch <- query (fun d : DB semver => get_arch_by_name d (p_architecture package)) ;;
          match db_arch with
          | None => ret tt
          | Some db_arch =>
              modify (fun d => with_reportunknownpackages d
                (reportunknownpackages d ++
                 [new_unknown_package db_report package db_arch role count]))
          end
      | Some _ =>
          modify (fun d => with_reportunknownpackages d
            (update_first
               (unknown_matches db_report role (p_name package) (p_epoch package)
                  (p_version package) (p_release package) (p_architecture package))
               (up_add_count count) (reportunknownpackages d)))
      end
  | Some db_package =>
      db_reportpackage <- query (fun d : DB semver =>
                            get_reportpackage d db_report db_package) ;;
      match db_reportpackage with
      | None =>
          modify (fun d : DB semver => with_reportpackages d
            (reportpackages d ++ [new_reportpackage db_report db_package role count]))
      | Some _ =>
          modify (fun d : DB semver => with_reportpackages d
            (update_first (reportpackage_matches db_report db_package)
               (rp_add_count count) (reportpackages d)))
      end
  end.

Fixpoint _save_packages (db_report : Z) (packages : list package) (count : Z) : M unit :=
  match packages with
  | [] => ret tt
  | package :: rest =>
      save_package db_report count package ;;
      _save_packages db_report rest count
  end.

(** ** The report aggregator *)

Definition desktop_aggregation (db_report : Z) (ureport : ureport) (count : Z) : M unit :=
  match u_desktop ureport with
  | None => ret tt
  | Some desktop =>
      version <- subscript "version" (u_version ureport) ;;
      db_release <- query (fun d : DB semver => get_osrelease d nice_name version) ;;
      match db_release with
      | None =>
          log_warn ("Release '" ++ nice_name ++ " " ++ version ++ "' not found")
      | Some db_release =>
          db_reldesktop <- query (fun d : DB semver =>
                             get_report_release_desktop d db_report db_release desktop) ;;
          match db_reldesktop with
          | None =>
              modify (fun d : DB semver => with_reportreleasedesktops d
                (reportreleasedesktops d ++
                 [{| rrd_report := db_report; rrd_release := db_release;
                     rrd_desktop := desktop; rrd_count := 0 + count |}]))
          | Some _ =>
              modify (fun d : DB semver => with_reportreleasedesktops d
                (update_first (reldesktop_matches db_report db_release desktop)
                   (rrd_add_count count) (reportreleasedesktops d)))
          end
      end
  end.

Definition save_ureport (db_report : Z) (ureport : ureport) (packages : list package)
    (flush : bool) (count : Z) : M unit :=
  desktop_aggregation db_report ureport count ;;
  _save_packages db_report packages count ;;
  if flush then session_flush else ret tt.

End Reconciler.

(** ** Validation *)

(** Modelled from the spec: the checker classes of [pyfaf.checker] and the
    column widths of [pyfaf.storage] ([column_len]), which this module
    imports. A string field is a non-empty text over the character set of
    its pattern, no longer than its column; the epoch is a non-negative
    integer; a dict is checked field by field and a list entry by entry,
    and the first violation raises [CheckError] naming the field. *)

Record column_lens : Type := {
  len_package_name : nat;
  len_build_version : nat;
  len_build_release : nat;
  len_arch_name : nat;
  len_desktop : nat
}.

Definition is_alnum_ (c : ascii) : bool :=
  PyStr.in_range 97 122 c || PyStr.in_range 65 90 c || PyStr.in_range 48 57 c ||
  (PyStr.code c =? 95)%N.

Definition is_one_of (l : list N) (c : ascii) : bool :=
  existsb (N.eqb (PyStr.code c)) l.

(** [a-zA-Z0-9_\-\.\+~] *)
Definition name_char (c : ascii) : bool := is_alnum_ c || is_one_of [45; 46; 43; 126]%N c.
(** [a-zA-Z0-9_\.\+~] *)
Definition version_char (c : ascii) : bool := is_alnum_ c || is_one_of [46; 43; 126]%N c.
(** [a-zA-Z0-9_\.\+] *)
Definition release_char (c : ascii) : bool := is_alnum_ c || is_one_of [46; 43]%N c.
(** [a-zA-Z0-9_] *)
Definition architecture_char (c : ascii) : bool := is_alnum_ c.

Definition StringChecker (field : string) (allowed : ascii -> bool) (maxlen : nat)
    (s : string) : result unit :=
  if PyStr.nonempty s && PyStr.all_chars allowed s && (String.length s <=? maxlen)%nat
  then Ok tt
  else Raise (CheckError field).

Definition IntChecker (field : string) (minval : Z) (n : Z) : result unit :=
  if minval <=? n then Ok tt else Raise (CheckError field).

Definition and_then (r : result unit) (k : result unit) : result unit :=
  match r with
  | Ok _ => k
  | Raise e => Raise e
  end.

Definition package_checker (lens : column_lens) (p : package) : result unit :=
  and_then (StringChecker "name" name_char (len_package_name lens) (p_name p))
  (and_then (IntChecker "epoch" 0 (p_epoch p))
  (and_then (StringChecker "version" version_char (len_build_version lens) (p_version p))
  (and_then (StringChecker "release" release_char (len_build_release lens) (p_release p))
            (StringChecker "architecture" architecture_char (len_arch_name lens)
               (p_architecture p))))).

Fixpoint packages_checker (lens : column_lens) (packages : list package) : result unit :=
  match packages with
  | [] => Ok tt
  | p :: rest => and_then (package_checker lens p) (packages_checker lens rest)
  end.


Definition roles_message : string :=
  "Only the following package roles are allowed: " ++ String.concat ", " pkg_roles.

(** The loop of [validate_packages]: [affected] is the flag so far. *)
Fixpoint scan_roles (affected : bool) (packages : list package) : result bool :=
  match packages with
  | [] => Ok affected
  | package :: rest =>
      match p_package_role package with
      | None => scan_roles affected rest
      | Some package_role =>
          if negb (existsb (String.eqb package_role) pkg_roles)
          then Raise (FafError roles_message)
          else scan_roles (if (package_role =? "affected")%string then true else affected) rest
      end
  end.

Section Validation.

Context {semver : Type}.


Definition validate_packages (self : Fedora) (lens : column_lens) (packages : list package)
    : M (semver := semver) bool :=
  lift (packages_checker lens packages) ;;
  affected <- lift (scan_roles false packages) ;;
  if negb (affected || allow_unpackaged self)
  then raise (FafError "uReport must contain affected package")
  else ret true.

End Validation.

(** ** The build merger *)

Record datetime : Type := {
  year : Z; month : Z; day : Z;
  hour : Z; minute : Z; second : Z; microsecond : Z
}.

(** [datetime.strptime(s, "%Y-%m-%d %H:%M:%S.%f")], after CPython's
    [_strptime]: the format becomes a regular expression, one group per
    directive with its alternatives tried in order, blanks of the format
    matching one or more blanks; the match must use the whole text, and the
    fields must make a date that exists. A parser here returns the ways a
    piece matches, the preferred one first. *)
Module Strptime.

Definition parser (A : Type) : Type := string -> list (A * string).

Definition pret {A} (a : A) : parser A := fun s => [(a, s)].

Definition pbind {A B} (p : parser A) (k : A -> parser B) : parser B :=
  fun s => flat_map (fun r => k (fst r) (snd r)) (p s).

Definition por {A} (p q : parser A) : parser A := fun s => (p s ++ q s)%list.

Definition pchar (f : ascii -> bool) : parser ascii :=
  fun s => match s with
           | String c s' => if f c then [(c, s')] else []
           | EmptyString => []
           end.

(** One decimal digit between the characters [lo] and [hi], as its value. *)
Definition digit (lo hi : N) : parser Z :=
  pbind (pchar (PyStr.in_range lo hi)) (fun c => pret (PyStr.digit_value c)).

Definition two (p q : parser Z) : parser Z :=
  pbind p (fun a => pbind q (fun b => pret (10 * a + b))).

Definition lit (n : N) : parser unit :=
  pbind (pchar (fun c => (PyStr.code c =? n)%N)) (fun _ => pret tt).

(** [\s]: the characters for which [str.isspace] holds. *)
Definition isspace (c : ascii) : bool :=
  PyStr.in_range 9 13 c || PyStr.in_range 28 32 c ||
  (PyStr.code c =? 133)%N || (PyStr.code c =? 160)%N.

Fixpoint spaces_star (s : string) : list (unit * string) :=
  match s with
  | String c s' => if isspace c then (spaces_star s' ++ [(tt, s)])%list else [(tt, s)]
  | EmptyString => [(tt, s)]
  end.

(** [\s+], greedy *)
Definition spaces_plus : parser unit :=
  fun s => match s with
           | String c s' => if isspace c then spaces_star s' else []
           | EmptyString => []
           end.

(** [%Y]: [\d\d\d\d] *)
Definition pY : parser Z :=
  pbind (digit 48 57) (fun a => pbind (digit 48 57) (fun b =>
  pbind (digit 48 57) (fun c => pbind (digit 48 57) (fun d =>
  pret (1000 * a + 100 * b + 10 * c + d))))).

(** [%m]: [1[0-2]|0[1-9]|[1-9]] *)
Definition pm : parser Z :=
  por (two (digit 49 49) (digit 48 50))
 (por (two (digit 48 48) (digit 49 57))
      (digit 49 57)).

(** [%d]: [3[0-1]|[1-2]\d|0[1-9]|[1-9]| [1-9]] *)
Definition pd : parser Z :=
  por (two (digit 51 51) (digit 48 49))
 (por (two (digit 49 50) (digit 48 57))
 (por (two (digit 48 48) (digit 49 57))
 (por (digit 49 57)
      (pbind (lit 32) (fun _ => digit 49 57))))).

(** [%H]: [2[0-3]|[0-1]\d|\d] *)
Definition pH : parser Z :=
  por (two (digit 50 50) (digit 48 51))
 (por (two (digit 48 49) (digit 48 57))
      (digit 48 57)).

(** [%M]: [[0-5]\d|\d] *)
Definition pM : parser Z :=
  por (two (digit 48 53) (digit 48 57)) (digit 48 57).

(** [%S]: [6[0-1]|[0-5]\d|\d] *)
Definition pS : parser Z :=
  por (two (digit 54 54) (digit 48 49))
 (por (two (digit 48 53) (digit 48 57))
      (digit 48 57)).

(** After some digits of value [acc], up to [fuel] more; the fraction is
    padded with zeros on the right to six digits ([pad] of them remain). *)
Fixpoint more_digits (fuel : nat) (acc : Z) (pad : nat) (s : string) : list (Z * string) :=
  match fuel with
  | O => [(acc * 10 ^ Z.of_nat pad, s)]
  | S fuel' =>
      match s with
      | String c s' =>
          if PyStr.is_decimal_char c
          then (more_digits fuel' (10 * acc + PyStr.digit_value c) (pad - 1) s' ++
                [(acc * 10 ^ Z.of_nat pad, s)])%list
          else [(acc * 10 ^ Z.of_nat pad, s)]
      | EmptyString => [(acc * 10 ^ Z.of_nat pad, s)]
      end
  end.

(** [%f]: [[0-9]{1,6}], greedy *)
Definition pf : parser Z :=
  fun s => match s with
           | String c s' =>
               if PyStr.is_decimal_char c
               then more_digits 5 (PyStr.digit_value c) 5 s'
               else []
           | EmptyString => []
           end.

Definition fields : parser datetime :=
  pbind pY (fun Y => pbind (lit 45) (fun _ =>
  pbind pm (fun m => pbind (lit 45) (fun _ =>
  pbind pd (fun d => pbind spaces_plus (fun _ =>
  pbind pH (fun H => pbind (lit 58) (fun _ =>
  pbind pM (fun M => pbind (lit 58) (fun _ =>
  pbind pS (fun S => pbind (lit 46) (fun _ =>
  pbind pf (fun f =>
  pret {| year := Y; month := m; day := d;
          hour := H; minute := M; second := S; microsecond := f |}))))))))))))).

Definition is_leap (y : Z) : bool :=
  (y mod 4 =? 0) && (negb (y mod 100 =? 0) || (y mod 400 =? 0)).

Definition days_in_month (y m : Z) : Z :=
  if m =? 2 then (if is_leap y then 29 else 28)
  else if (m =? 4) || (m =? 6) || (m =? 9) || (m =? 11) then 30
  else 31.

(** What the [datetime] constructor accepts. *)
Definition valid (t : datetime) : bool :=
  (1 <=? year t) && (year t <=? 9999) &&
  (1 <=? month t) && (month t <=? 12) &&
  (1 <=? day t) && (day t <=? days_in_month (year t) (month t)) &&
  (0 <=? hour t) && (hour t <=? 23) &&
  (0 <=? minute t) && (minute t <=? 59) &&
  (0 <=? second t) && (second t <=? 59) &&
  (0 <=? microsecond t) && (microsecond t <=? 999999).

Definition strptime (s : string) : result datetime :=
  match fields s with
  | [] => Raise (ValueError ("time data '" ++ s ++ "' does not match format"))
  | (t, rest) :: _ =>
      match rest with
      | EmptyString =>
          if valid t then Ok t else Raise (ValueError "date value out of range")
      | String _ _ => Raise (ValueError ("unconverted data remains: " ++ rest))
      end
  end.

End Strptime.

(** The order of [datetime] values: that of the tuples of their fields. *)
Definition datetime_key (t : datetime) : list Z :=
  [year t; month t; day t; hour t; minute t; second t; microsecond t].

Fixpoint lex_compare (a b : list Z) : comparison :=
  match a, b with
  | [], [] => Eq
  | [], _ :: _ => Lt
  | _ :: _, [] => Gt
  | x :: a', y :: b' =>
      match x ?= y with
      | Eq => lex_compare a' b'
      | c => c
      end
  end.

Definition datetime_compare (s t : datetime) : comparison :=
  lex_compare (datetime_key s) (datetime_key t).

Definition datetime_leb (s t : datetime) : bool :=
  match datetime_compare s t with Gt => false | _ => true end.

Definition datetime_eqb (s t : datetime) : bool :=
  match datetime_compare s t with Eq => true | _ => false end.

(** A build as [koji]'s [listTagged] returns it, with the keys read here. *)
Record koji_build : Type := {
  b_name : string;
  b_epoch : option Z;
  b_version : string;
  b_release : string;
  b_nvr : string;
  b_completion_time : string
}.

(** A dict of the list that [get_released_builds] returns. *)
Record released_build : Type := {
  rb_name : string;
  rb_epoch : Z;
  rb_version : string;
  rb_release : string;
  rb_nvr : string;
  rb_completion_time : datetime
}.

(** [sorted(l, key=key, reverse=True)] on text keys: the stable sort into
    descending order, where entries with equal keys keep the order they had.
    An entry is put in front of the sorted tail that followed it, past the
    entries whose key is strictly greater. *)
Section Sorted.

Context {A : Type}.
Variable key : A -> string.

Fixpoint insert_desc (x : A) (l : list A) : list A :=
  match l with
  | [] => [x]
  | y :: l' => if (key x <? key y)%string then y :: insert_desc x l' else x :: l
  end.

Definition sorted_reverse (l : list A) : list A := fold_right insert_desc [] l.

End Sorted.

Definition normalize_build (b : koji_build) : result released_build :=
  match Strptime.strptime (b_completion_time b) with
  | Raise e => Raise e
  | Ok t =>
      Ok {| rb_name := b_name b;
            rb_epoch := match b_epoch b with Some e => e | None => 0 end;
            rb_version := b_version b;
            rb_release := b_release b;
            rb_nvr := b_nvr b;
            rb_completion_time := t |}
  end.

(** A list comprehension whose body can raise: the first failure ends it. *)
Fixpoint map_result {A B : Type} (f : A -> result B) (l : list A) : result (list B) :=
  match l with
  | [] => Ok []
  | x :: l' =>
      match f x with
      | Raise e => Raise e
      | Ok y => match map_result f l' with
                | Raise e => Raise e
                | Ok ys => Ok (y :: ys)
                end
      end
  end.

Definition merge_builds (builds_release builds_updates : list koji_build)
    : result (list released_build) :=
  map_result normalize_build
    (sorted_reverse b_completion_time (builds_release ++ builds_updates)).

(** [listTagged] is the build tag source: a function of the tag here. *)
Definition get_released_builds (listTagged : string -> list koji_build) (release : string)
    : result (list released_build) :=
  let builds_release := listTagged ("f" ++ release) in
  let builds_updates := listTagged ("f" ++ release ++ "-updates") in
  merge_builds builds_release builds_updates.

(** ** The effect of the reconciler on the tables *)

(** What one pass of the loop of [_save_packages] does to the tables, and
    the warnings it logs, as functions of the tables ([save_package_run]
    relates them to the code). *)

Section Effect.

Context {semver : Type}.
Variable to_semver : string -> semver.

Definition lookup_package (d : DB semver) (package : package) : option Package :=
  get_package_by_nevra d (p_name package) (p_epoch package) (p_version package)
    (p_release package) (p_architecture package).

Definition package_key (db_report : Z) (package : package)
    : ReportUnknownPackage semver -> bool :=
  unknown_matches db_report (role_of package) (p_name package) (p_epoch package)
    (p_version package) (p_release package) (p_architecture package).

Definition lookup_unknown (d : DB semver) (db_report : Z) (package : package)
    : option (ReportUnknownPackage semver) :=
  find (package_key db_report package) (reportunknownpackages d).

Definition save_package_db (db_report : Z) (count : Z) (package : package)
    (d : DB semver) : DB semver :=
  match lookup_package d package with
  | None =>
      match lookup_unknown d db_report package with
      | None =>
          match get_arch_by_name d (p_architecture package) with
          | None => d
          | Some db_arch =>
              with_reportunknownpackages d
                (reportunknownpackages d ++
                 [new_unknown_package to_semver db_report package db_arch
                    (role_of package) count])
          end
      | Some _ =>
          with_reportunknownpackages d
            (update_first (package_key db_report package) (up_add_count count)
               (reportunknownpackages d))
      end
  | Some db_package =>
      match get_reportpackage d db_report db_package with
      | None =>
          with_reportpackages d
            (reportpackages d ++
             [new_reportpackage db_report db_package (role_of package) count])
      | Some _ =>
          with_reportpackages d
            (update_first (reportpackage_matches db_report db_package)
               (rp_add_count count) (reportpackages d))
      end
  end.

Definition save_package_warnings (package : package) (d : DB semver) : list string :=
  match lookup_package d package with
  | None => [not_found_message package]
  | Some _ => []
  end.

Definition save_packages_db (db_report : Z) (count : Z) (packages : list package)
    (d : DB semver) : DB semver :=
  fold_left (fun d package => save_package_db db_report count package d) packages d.







End Effect.

(** ** Sample data *)

(** A small store, with [to_semver] taken as the identity on texts: the
    catalog has bash for x86_64 and the release Fedora 38; "foo" is the
    record of the end-to-end scenario. *)

Definition text_semver (s : string) : string := s.

Definition x86_64 : Arch := {| arch_id := 1; arch_name := "x86_64" |}.

Definition catalog_bash : Package :=
  {| pkg_id := 7; pkg_name := "bash"; pkg_epoch := 0; pkg_version := "5.2";
     pkg_release := "1.fc38"; pkg_arch := "x86_64" |}.

Definition fedora_38 : OsRelease := {| osr_id := 3; osr_opsys := "Fedora"; osr_version := "38" |}.

Definition sample_db : DB string :=
  {| packages := [catalog_bash]; archs := [x86_64]; osreleases := [fedora_38];
     reportpackages := []; reportunknownpackages := []; reportreleasedesktops := [] |}.

Definition sample_world : World string :=
  {| db := sample_db; warnings := []; flushes := 0 |}.


Definition sample_bash : package :=
  {| p_name := "bash"; p_epoch := 0; p_version := "5.2"; p_release := "1.fc38";
     p_architecture := "x86_64"; p_package_role := Some "related" |}.

Definition sample_foo : package :=
  {| p_name := "foo"; p_epoch := 0; p_version := "1.0"; p_release := "1.fc20";
     p_architecture := "x86_64"; p_package_role := Some "affected" |}.

Definition sample_lens : column_lens :=
  {| len_package_name := 256; len_build_version := 64; len_build_release := 64;
     len_arch_name := 8; len_desktop := 256 |}.


(** ** The policy, as predicates on the list *)

(** The record has a role tag outside [pkg_roles]. *)
Definition illegal_role (p : package) : bool :=
  match p_package_role p with
  | Some role => negb (existsb (String.eqb role) pkg_roles)
  | None => false
  end.

(** The record has the role tag "affected". *)
Definition is_affected (p : package) : bool :=
  match p_package_role p with
  | Some role => (role =? "affected")%string
  | None => false
  end.

(** The store of [sample_world] after "foo" was reconciled once for report
    1, and the aggregate it then holds. *)
Definition world_with_foo : World string :=
  exec (_save_packages text_semver 1 [sample_foo] 1) sample_world.


(** ** Orders on the merged builds *)

(** [a] comes before [b] in a descending order of the completion-time
    texts. *)
Definition text_desc (a b : koji_build) : Prop :=
  (b_completion_time b <=? b_completion_time a)%string = true.

(** The list is ordered by completion timestamp, most recent first. *)
Fixpoint chronological_desc (l : list released_build) : bool :=
  match l with
  | [] => true
  | x :: l' =>
      forallb (fun y => datetime_leb (rb_completion_time y) (rb_completion_time x)) l' &&
      chronological_desc l'
  end.

(** The output record that belongs to a raw record. *)
Definition normalized (b : koji_build) (o : released_build) : Prop :=
  rb_name o = b_name b /\
  rb_epoch o = match b_epoch b with Some e => e | None => 0 end /\
  rb_version o = b_version b /\
  rb_release o = b_release b /\
  rb_nvr o = b_nvr b /\
  Strptime.strptime (b_completion_time b) = Ok (rb_completion_time o).

Definition build_at (nvr : string) (epoch : option Z) (completion_time : string) : koji_build :=
  {| b_name := "bash"; b_epoch := epoch; b_version := "5.2"; b_release := "1.fc38";
     b_nvr := nvr; b_completion_time := completion_time |}.

(** Two builds whose completion times are written without zero padding, as
    [strptime] accepts them: September and October 2023. *)
Definition build_september : koji_build := build_at "bash-5.2-1.fc38" None "2023-9-01 00:00:00.0".
Definition build_october : koji_build := build_at "bash-5.2-2.fc38" (Some 1) "2023-10-01 00:00:00.0".

(** The three builds of the ordering example of the spec. *)
Definition build_january : koji_build :=
  build_at "bash-5.2-1.fc38" None "2023-01-01 00:00:00.000000".
Definition build_march : koji_build :=
  build_at "bash-5.2-3.fc38" None "2023-03-01 00:00:00.000000".
Definition build_february : koji_build :=
  build_at "bash-5.2-2.fc38" None "2023-02-01 00:00:00.000000".

Definition midnight (y m d : Z) : datetime :=
  {| year := y; month := m; day := d; hour := 0; minute := 0; second := 0;
     microsecond := 0 |}.

Definition released_at (nvr : string) (epoch : Z) (t : datetime) : released_build :=
  {| rb_name := "bash"; rb_epoch := epoch; rb_version := "5.2"; rb_release := "1.fc38";
     rb_nvr := nvr; rb_completion_time := t |}.

(** ** Zero-padded completion times *)

(** The text "YYYY-MM-DD HH:MM:SS.ffffff" of a timestamp, every field at
    its full width: the form in which the build system writes a completion
    time that has all six digits of its microseconds. *)
Definition digit_char (d : Z) : ascii := ascii_of_N (Z.to_N (48 + d)).

Definition pad2 (n : Z) (rest : string) : string :=
  String (digit_char (n / 10)) (String (digit_char (n mod 10)) rest).

Definition pad4 (n : Z) (rest : string) : string :=
  pad2 (n / 100) (pad2 (n mod 100) rest).

Definition pad6 (n : Z) (rest : string) : string :=
  pad2 (n / 10000) (pad4 (n mod 10000) rest).

Definition padded_text (t : datetime) : string :=
  pad4 (year t) (String "-" (pad2 (month t) (String "-" (pad2 (day t) (String " "
  (pad2 (hour t) (String ":" (pad2 (minute t) (String ":" (pad2 (second t) (String "."
  (pad6 (microsecond t) EmptyString)))))))))))).

(** The completion time of the build is such a text. *)
Definition is_padded (b : koji_build) : Prop :=
  exists t, Strptime.valid t = true /\ b_completion_time b = padded_text t.

(** ** What the tables keep *)

(** A row of a later table that is the row [x] of an earlier one: the same
    report, package and type, and a count that has not gone down. *)
Definition association_kept (x y : ReportPackage) : Prop :=
  rp_report y = rp_report x /\
  rp_installed_package y = rp_installed_package x /\
  rp_type y = rp_type x /\
  rp_count x <= rp_count y.

Definition aggregate_kept {semver : Type} (x y : ReportUnknownPackage semver) : Prop :=
  up_report y = up_report x /\ up_name y = up_name x /\ up_epoch y = up_epoch x /\
  up_version y = up_version x /\ up_release y = up_release x /\
  up_semver y = up_semver x /\ up_semrel y = up_semrel x /\
  up_arch y = up_arch x /\ up_type y = up_type x /\
  up_count x <= up_count y.

(** The later table has every row of the earlier one, in place, and maybe
    new rows after them. *)
Definition grows {A : Type} (kept : A -> A -> Prop) (old new : list A) : Prop :=
  exists rows added, new = (rows ++ added)%list /\ Forall2 kept old rows.

(** The two records have the same aggregate key for their reports. *)
Definition same_key (r : Z) (p : package) (r' : Z) (q : package) : bool :=
  (r =? r') && (role_of p =? role_of q)%string && (p_name p =? p_name q)%string &&
  (p_epoch p =? p_epoch q) && (p_version p =? p_version q)%string &&
  (p_release p =? p_release q)%string && (p_architecture p =? p_architecture q)%string.

(** The count of the desktop aggregate of a report and release; 0 without
    a row. *)
Definition desktop_count {semver : Type} (d : DB semver) (db_report : Z)
    (db_release : OsRelease) (desktop : string) : Z :=
  match get_report_release_desktop d db_report db_release desktop with
  | Some row => rrd_count row
  | None => 0
  end.

(** The records of the sample store under other roles, and the store after
    bash was reconciled once for report 1. *)
Definition sample_bash_affected : package :=
  {| p_name := "bash"; p_epoch := 0; p_version := "5.2"; p_release := "1.fc38";
     p_architecture := "x86_64"; p_package_role := Some "affected" |}.

Definition sample_foo_related : package :=
  {| p_name := "foo"; p_epoch := 0; p_version := "1.0"; p_release := "1.fc20";
     p_architecture := "x86_64"; p_package_role := Some "related" |}.

Definition world_with_bash : World string :=
  exec (_save_packages text_semver 1 [sample_bash] 1) sample_world.

Definition association_bash : ReportPackage :=
  {| rp_report := 1; rp_installed_package := catalog_bash; rp_count := 1;
     rp_type := "RELATED" |}.

(** ** Dicts *)

(** A Python dict with text keys: its items in insertion order, one item
    for a key. [d[k] = v] replaces the value of [k] where it stands, or adds
    the item at the end. *)
Section Dict.

Context {V : Type}.

Fixpoint dict_get (k : string) (d : list (string * V)) : option V :=
  match d with
  | [] => None
  | (k', v) :: d' => if (k' =? k)%string then Some v else dict_get k d'
  end.

Fixpoint dict_set (k : string) (v : V) (d : list (string * V)) : list (string * V) :=
  match d with
  | [] => [(k, v)]
  | (k', v') :: d' =>
      if (k' =? k)%string then (k', v) :: d' else (k', v') :: dict_set k v d'
  end.

Definition dict_keys (d : list (string * V)) : list string := map fst d.

End Dict.

(** ** Package name match *)

Definition nvra_of (package : package) : string :=
  p_name package ++ "-" ++ p_version package ++ "-" ++ p_release package ++ "." ++
  p_architecture package.

(** [parser.match(nvra) is not None] is the function [parser_match]. *)
Fixpoint check_pkgname_match (packages : list package) (parser_match : string -> bool)
    : bool :=
  match packages with
  | [] => false
  | package :: rest =>
      match p_package_role package with
      | None => check_pkgname_match rest parser_match
      | Some package_role =>
          if negb (PyStr.lower package_role =? "affected")%string
          then check_pkgname_match rest parser_match
          else if parser_match (nvra_of package) then true
               else check_pkgname_match rest parser_match
      end
  end.

(** ** The release directory *)

Definition name : string := "fedora".

(** A release as the release directory lists it: a JSON object, with the
    keys read here when it has them. *)
Record pdc_release : Type := {
  pr_version : option string;
  pr_release_type : option string;
  pr_active : option bool
}.

Record release_info : Type := { status : string }.

Section Releases.

(** [fnmatch.fnmatchcase ver pattern], of the standard library. *)
Variable fnmatchcase : string -> string -> bool.

Fixpoint _is_ignored (ignored_releases : list string) (ver : string) : bool :=
  match ignored_releases with
  | [] => false
  | pattern :: rest =>
      if fnmatchcase ver pattern then true else _is_ignored rest ver
  end.

(** One pass of the loop of [get_releases]: the item to store, [None] where
    the loop continues, or the [KeyError] of a missing key. *)
Definition release_entry (ignored_releases : list string) (release : pdc_release)
    : result (option (string * release_info)) :=
  match pr_version release with
  | None => Raise (KeyError "version")
  | Some version =>
      let ver := PyStr.lower version in
      if negb (PyStr.isdecimal ver) && negb (ver =? "rawhide")%string then Ok None
      else if negb (match pr_release_type release with
                    | Some release_type => (release_type =? "ga")%string
                    | None => false
                    end)
              || _is_ignored ignored_releases ver then Ok None
      else match pr_active release with
           | None => Raise (KeyError "active")
           | Some active =>
               Ok (Some (ver, {| status := if active then "ACTIVE" else "EOL" |}))
           end
  end.

Fixpoint releases_loop (ignored_releases : list string) (releases : list pdc_release)
    (res : list (string * release_info)) : result (list (string * release_info)) :=
  match releases with
  | [] => Ok res
  | release :: rest =>
      match release_entry ignored_releases release with
      | Raise e => Raise e
      | Ok None => releases_loop ignored_releases rest res
      | Ok (Some (ver, info)) =>
          releases_loop ignored_releases rest (dict_set ver info res)
      end
  end.

(** [urlopen] followed by [json.load] is the release directory: a function
    of the address. *)
Definition get_releases (urlopen : string -> list pdc_release) (pdc_url : string)
    (ignored_releases : list string) : result (list (string * release_info)) :=
  let url := pdc_url ++ "releases/?page_size=-1&short=" ++ name in
  releases_loop ignored_releases (urlopen url) [].

End Releases.

(** ** The component directory *)

Record component_item : Type := { global_component : option string }.

Definition component_name (item : component_item) : result string :=
  match global_component item with
  | Some c => Ok c
  | None => Raise (KeyError "global_component")
  end.

(** The outcome of [get_components] and the addresses it opened. *)
Definition get_components (urlopen : string -> list component_item) (pdc_url : string)
    (release : release_arg) : result (list string) * list string :=
  match _release_to_branch release with
  | Raise e => (Raise e, [])
  | Ok branch =>
      let url := pdc_url ++ "component-branches/?name=" ++ branch ++
                 "&page_size=-1&fields=global_component&type=rpm" in
      (map_result component_name (urlopen url), [url])
  end.

(** What [urlopen] gives for an address of the package service: the JSON
    object of the response, or an [HTTPError] with its text. *)
Inductive http (A : Type) : Type :=
| Response (body : A)
| HTTPError (reason : string).

Arguments Response {A} body.
Arguments HTTPError {A} reason.

(** The JSON object of a response, with the keys read here: the users of
    each access group, and the users who watch (the keys of the watchers
    object). *)
Record pagure_json : Type := {
  access_users : option (list (string * list string));
  watchers : option (list string)
}.

Record acl : Type := { commit : bool; watchbugzilla : bool }.

(** What a call of [get_component_acls] leaves: its outcome, the errors it
    logged and the addresses it opened, in order. *)
Record acls_run : Type := {
  acls_outcome : result (list (string * acl));
  acls_errors : list string;
  acls_requests : list string
}.

Definition newline_tab : string := String (ascii_of_N 10) (String (ascii_of_N 9) EmptyString).

Definition acls_error (what component reason url : string) : string :=
  "Unable to get " ++ what ++ " for component '" ++ component ++ "': " ++ reason ++
  newline_tab ++ "URL: " ++ url.

Definition add_owner (res : list (string * acl)) (user : string) : list (string * acl) :=
  dict_set user {| commit := true; watchbugzilla := false |} res.

Definition add_group (res : list (string * acl)) (group : string * list string)
    : list (string * acl) :=
  fold_left add_owner (snd group) res.

Definition add_watcher (res : list (string * acl)) (user : string) : list (string * acl) :=
  match dict_get user res with
  | Some a => dict_set user {| commit := commit a; watchbugzilla := true |} res
  | None => dict_set user {| commit := false; watchbugzilla := true |} res
  end.

Definition get_component_acls (urlopen : string -> http pagure_json) (pagure_url : string)
    (component : string) : acls_run :=
  let url := pagure_url ++ "/rpms/" ++ component in
  match urlopen url with
  | HTTPError ex =>
      {| acls_outcome := Ok [];
         acls_errors := [acls_error "package information" component ex url];
         acls_requests := [url] |}
  | Response acls =>
      match access_users acls with
      | None =>
          {| acls_outcome := Raise (KeyError "access_users");
             acls_errors := []; acls_requests := [url] |}
      | Some groups =>
          let res := fold_left add_group groups [] in
          let url' := url ++ "/watchers" in
          match urlopen url' with
          | HTTPError ex =>
              {| acls_outcome := Ok res;
                 acls_errors := [acls_error "watchers" component ex url'];
                 acls_requests := [url; url'] |}
          | Response body =>
              match watchers body with
              | None =>
                  {| acls_outcome := Raise (KeyError "watchers");
                     acls_errors := []; acls_requests := [url; url'] |}
              | Some users =>
                  {| acls_outcome := Ok (fold_left add_watcher users res);
                     acls_errors := []; acls_requests := [url; url'] |}
              end
          end
      end
  end.

(** The record counts as affected for [check_pkgname_match]: its role tag
    is "affected" in any letter case. *)
Definition affected_any_case (p : package) : bool :=
  match p_package_role p with
  | Some role => (PyStr.lower role =? "affected")%string
  | None => false
  end.

(** The release passes the filters of [get_releases]: its version, in lower
    case, is decimal or "rawhide", it is a GA release, and no ignore
    pattern matches the version. *)
Definition release_passes (fnmatchcase : string -> string -> bool)
    (ignored_releases : list string) (version : string) (release_type : option string)
    : bool :=
  let ver := PyStr.lower version in
  (PyStr.isdecimal ver || (ver =? "rawhide")%string) &&
  match release_type with
  | Some t => (t =? "ga")%string
  | None => false
  end &&
  negb (_is_ignored fnmatchcase ignored_releases ver).

(** A listing of the release directory: Fedora 38 twice, at first active
    and at last not, the updates of 38 without the key "active", Rawhide,
    and 37 which the sample configuration ignores. The sample matcher takes
    a pattern for the version it spells. *)
Definition sample_releases : list pdc_release :=
  [ {| pr_version := Some "38"; pr_release_type := Some "ga"; pr_active := Some true |};
    {| pr_version := Some "38"; pr_release_type := Some "updates"; pr_active := None |};
    {| pr_version := Some "Rawhide"; pr_release_type := Some "ga"; pr_active := Some true |};
    {| pr_version := Some "37"; pr_release_type := Some "ga"; pr_active := None |};
    {| pr_version := Some "38"; pr_release_type := Some "ga"; pr_active := Some false |} ].

Definition sample_directory (url : string) : list pdc_release := sample_releases.

Definition exact_match (ver pattern : string) : bool := (pattern =? ver)%string.

Definition sample_listing : list (string * release_info) :=
  [("38", {| status := "EOL" |}); ("rawhide", {| status := "ACTIVE" |})].

(** The user is in some access group; the user watches. *)
Definition is_owner (groups : list (string * list string)) (user : string) : bool :=
  existsb (fun g => existsb (String.eqb user) (snd g)) groups.

Definition is_watcher (users : list string) (user : string) : bool :=
  existsb (String.eqb user) users.

(** The package service for a component with two access groups and two
    watchers, and the same service when the watchers cannot be had. *)
Definition sample_pagure (url : string) : http pagure_json :=
  if (url =? "https://src/rpms/bash")%string
  then Response {| access_users := Some [("owner", ["alice"]); ("commit", ["bob"; "alice"])];
                   watchers := None |}
  else if (url =? "https://src/rpms/bash/watchers")%string
  then Response {| access_users := None; watchers := Some ["carol"; "bob"] |}
  else HTTPError "HTTP Error 404: Not Found".

Definition sample_pagure_no_watchers (url : string) : http pagure_json :=
  if (url =? "https://src/rpms/bash")%string then sample_pagure url
  else HTTPError "HTTP Error 500: Internal Server Error".

Definition sample_components (url : string) : list component_item :=
  [{| global_component := Some "bash" |}; {| global_component := Some "glibc" |}].

(** The item of a user of an access group, and the [commit] of a user in a
    dict, false without an item. *)
Definition owner_acl : acl := {| commit := true; watchbugzilla := false |}.

Definition commit_of (res : list (string * acl)) (u : string) : bool :=
  match dict_get u res with Some a => commit a | None => false end.

(** The branch of a release number. *)
Definition branch_of_number (n : Z) : string :=
  if n <? 6 then "FC-" ++ PyStr.str_of_int n
  else if n =? 6 then "fc6"
  else "f" ++ PyStr.str_of_int n.

(** A build whose completion time has no fraction of a second. *)
Definition build_whole_second : koji_build :=
  build_at "bash-5.2-4.fc38" None "2023-04-01 00:00:00".


(** The text of [n] digits 1. *)
Fixpoint ones (n : nat) : string :=
  match n with
  | O => EmptyString
  | S k => String "1" (ones k)
  end.

(** * Properties *)

(** ** Text *)

Lemma all_chars_decimal_digit (s : string) :
  PyStr.all_chars PyStr.is_decimal_char s = true ->
  PyStr.all_chars PyStr.char_isdigit s = true.
Proof.
  induction s as [|c s IH]; simpl; [reflexivity|].
  intros H. apply andb_true_iff in H as [Hc Hs].
  apply andb_true_iff. split; [|exact (IH Hs)].
  unfold PyStr.char_isdigit. rewrite Hc. reflexivity.
Qed.

Lemma isdecimal_isdigit (s : string) :
  PyStr.isdecimal s = true -> PyStr.isdigit s = true.
Proof.
  unfold PyStr.isdecimal, PyStr.isdigit. intros H.
  apply andb_true_iff in H as [Hn Hs].
  rewrite Hn, (all_chars_decimal_digit _ Hs). reflexivity.
Qed.

Lemma code_ascii_of_N (n : N) : (n < 256)%N -> PyStr.code (ascii_of_N n) = n.
Proof. intros H. unfold PyStr.code. apply N_ascii_embedding. exact H. Qed.

Lemma code_inj (c d : ascii) : PyStr.code c = PyStr.code d -> c = d.
Proof.
  unfold PyStr.code. intros H.
  rewrite <- (ascii_N_embedding c), <- (ascii_N_embedding d), H. reflexivity.
Qed.

Lemma char_lower_decimal (c : ascii) :
  PyStr.is_decimal_char c = true -> PyStr.char_lower c = c.
Proof.
  unfold PyStr.is_decimal_char, PyStr.char_lower, PyStr.is_upper_char, PyStr.in_range.
  intros H. apply andb_true_iff in H as [H1 H2].
  apply N.leb_le in H1. apply N.leb_le in H2.
  replace (65 <=? PyStr.code c)%N with false by (symmetry; apply N.leb_gt; lia).
  replace (192 <=? PyStr.code c)%N with false by (symmetry; apply N.leb_gt; lia).
  replace (216 <=? PyStr.code c)%N with false by (symmetry; apply N.leb_gt; lia).
  reflexivity.
Qed.

(** A text of decimal digits is not "rawhide" in any letter case. *)
Lemma isdecimal_not_rawhide (s : string) :
  PyStr.isdecimal s = true -> (PyStr.lower s =? "rawhide")%string = false.
Proof.
  destruct s as [|c s]; [discriminate|].
  unfold PyStr.isdecimal. simpl. intros H.
  apply andb_true_iff in H as [Hc _].
  rewrite (char_lower_decimal _ Hc).
  destruct (Ascii.eqb c "r") eqn:E; [|reflexivity].
  apply Ascii.eqb_eq in E. subst c. discriminate.
Qed.

(** The branch table on the texts that the mapping is meant for: "rawhide"
    in any letter case, a text of decimal digits, and a text that is not
    made of digits. *)
Lemma release_to_branch_table (s : string) :
  ((PyStr.lower s =? "rawhide")%string = true ->
     _release_to_branch (RelStr s) = Ok "rawhide") /\
  (PyStr.isdecimal s = true -> (String.length s <= PyStr.max_str_digits)%nat ->
     let n := PyStr.decimal_value 0 s in
     _release_to_branch (RelStr s) =
       Ok (if n <? 6 then "FC-" ++ PyStr.str_of_int n
           else if n =? 6 then "fc6"
           else "f" ++ PyStr.str_of_int n)) /\
  ((PyStr.lower s =? "rawhide")%string = false -> PyStr.isdigit s = false ->
     _release_to_branch (RelStr s) =
       Raise (FafError (s ++ " is not a valid Fedora version"))).
Proof.
  unfold _release_to_branch. simpl. repeat split.
  - intros ->. reflexivity.
  - intros H Hlen. rewrite (isdecimal_not_rawhide _ H), (isdecimal_isdigit _ H).
    unfold PyStr.int_of_str. rewrite H.
    apply Nat.leb_le in Hlen. rewrite Hlen.
    destruct (PyStr.decimal_value 0 s <? 6); [reflexivity|].
    destruct (PyStr.decimal_value 0 s =? 6) eqn:E; [|reflexivity].
    apply Z.eqb_eq in E. rewrite E. reflexivity.
  - intros -> ->. reflexivity.
Qed.

(** C4, at the text made of the one character U+00B2 (superscript two):
    [isdigit] holds for it, [int] does not read it, and the mapping ends in
    a [ValueError], neither a branch name nor the [FafError] of an invalid
    release. *)
Theorem release_to_branch_superscript_two :
  let release := String (ascii_of_N 178) EmptyString in
  PyStr.isdigit release = true /\
  PyStr.isdecimal release = false /\
  (PyStr.lower release =? "rawhide")%string = false /\
  _release_to_branch (RelStr release) =
    Raise (ValueError ("invalid literal for int() with base 10: '" ++ release ++ "'")).
Proof. repeat split; reflexivity. Qed.

Example release_to_branch_rawhide : _release_to_branch (RelStr "RawHide") = Ok "rawhide".
Proof. reflexivity. Qed.

Example release_to_branch_5 : _release_to_branch (RelStr "5") = Ok "FC-5".
Proof. reflexivity. Qed.

Example release_to_branch_6 : _release_to_branch (RelStr "6") = Ok "fc6".
Proof. reflexivity. Qed.

Example release_to_branch_20 : _release_to_branch (RelInt 20) = Ok "f20".
Proof. reflexivity. Qed.

Example release_to_branch_abc :
  _release_to_branch (RelStr "abc") = Raise (FafError "abc is not a valid Fedora version").
Proof. reflexivity. Qed.

(** ** Role classification *)

(** C7: the classification is read off the role tag: "affected" gives
    CRASHED, "selinux_policy" gives SELINUX_POLICY, no tag and any other tag
    give RELATED; two records with the same tag are classified alike
    whatever their other fields, and no table of the storage is an input. *)
Theorem role_classification (n : string) (e : Z) (v r a : string) :
  role_of {| p_name := n; p_epoch := e; p_version := v; p_release := r;
             p_architecture := a; p_package_role := Some "affected" |} = "CRASHED" /\
  role_of {| p_name := n; p_epoch := e; p_version := v; p_release := r;
             p_architecture := a; p_package_role := Some "selinux_policy" |}
    = "SELINUX_POLICY" /\
  role_of {| p_name := n; p_epoch := e; p_version := v; p_release := r;
             p_architecture := a; p_package_role := None |} = "RELATED" /\
  (forall tag : string, tag <> "affected" -> tag <> "selinux_policy" ->
     role_of {| p_name := n; p_epoch := e; p_version := v; p_release := r;
                p_architecture := a; p_package_role := Some tag |} = "RELATED") /\
  (forall p q : package, p_package_role p = p_package_role q -> role_of p = role_of q).
Proof.
  repeat split.
  - intros tag Ha Hs. unfold role_of. simpl.
    apply String.eqb_neq in Ha. apply String.eqb_neq in Hs. rewrite Ha, Hs. reflexivity.
  - intros p q H. unfold role_of. rewrite H. reflexivity.
Qed.

Lemma role_classification_witness :
  role_of {| p_name := "foo"; p_epoch := 0; p_version := "1.0"; p_release := "1.fc20";
             p_architecture := "x86_64"; p_package_role := Some "related" |} = "RELATED" /\
  role_of {| p_name := "foo"; p_epoch := 0; p_version := "1.0"; p_release := "1.fc20";
             p_architecture := "x86_64"; p_package_role := Some "affected" |} =
  role_of {| p_name := "bar"; p_epoch := 2; p_version := "3"; p_release := "4";
             p_architecture := "i686"; p_package_role := Some "affected" |}.
Proof.
  destruct (role_classification "foo" 0 "1.0" "1.fc20" "x86_64") as (_ & _ & _ & Hother & Hsame).
  split.
  - apply Hother; discriminate.
  - apply Hsame. reflexivity.
Defined.

(** ** Lists of rows *)

Section Rows.

Context {A : Type}.
Variables (f : A -> bool) (g : A -> A).

Lemma update_first_length (l : list A) :
  List.length (update_first f g l) = List.length l.
Proof.
  induction l as [|x l IH]; simpl; [reflexivity|].
  destruct (f x); simpl; [reflexivity|]. now rewrite IH.
Qed.

Lemma update_first_none (l : list A) :
  find f l = None -> update_first f g l = l.
Proof.
  induction l as [|x l IH]; simpl; [reflexivity|].
  destruct (f x); [discriminate|]. intros H. now rewrite (IH H).
Qed.


Lemma find_update_first (l : list A) :
  (forall x, f (g x) = f x) ->
  find f (update_first f g l) = option_map g (find f l).
Proof.
  intros Hg. induction l as [|y l IH]; simpl; [reflexivity|].
  destruct (f y) eqn:E; simpl.
  - now rewrite Hg, E.
  - now rewrite E.
Qed.

Lemma find_app_new (l : list A) (x : A) :
  find f l = None -> f x = true -> find f (l ++ [x]) = Some x.
Proof.
  induction l as [|y l IH]; simpl; intros Hn Hx.
  - now rewrite Hx.
  - destruct (f y); [discriminate|]. now apply IH.
Qed.

End Rows.



(** ** The reconciler and the tables *)

Ltac run :=
  unfold save_package, bind, query, modify, log_warn, session_flush, ret, raise,
    lift, subscript, exec, outcome; simpl.

Section ReconcilerFacts.

Context {semver : Type}.
Variable to_semver : string -> semver.

#[local] Abbreviation DB := (DB semver).
#[local] Abbreviation World := (World semver).

(** One pass of the loop never raises; its effect is [save_package_db] on
    the tables and [save_package_warnings] on the log. *)
Lemma save_package_run (r c : Z) (p : package) (w : World) :
  save_package to_semver r c p w =
  (Ok tt, {| db := save_package_db to_semver r c p (db w);
             warnings := warnings w ++ save_package_warnings p (db w);
             flushes := flushes w |}).
Proof.
  unfold save_package_db, save_package_warnings, lookup_unknown, lookup_package, package_key.
  run.
  destruct (get_package_by_nevra (db w) _ _ _ _ _) as [pk|]; simpl.
  - rewrite app_nil_r.
    destruct (get_reportpackage (db w) r pk); reflexivity.
  - unfold get_unknown_package.
    destruct (find _ (reportunknownpackages (db w))); simpl; [reflexivity|].
    destruct (get_arch_by_name (db w) _); reflexivity.
Qed.

Lemma save_packages_run (r c : Z) (pkgs : list package) (w : World) :
  exists ws,
    _save_packages to_semver r pkgs c w =
    (Ok tt, {| db := save_packages_db to_semver r c pkgs (db w);
               warnings := warnings w ++ ws;
               flushes := flushes w |}).
Proof.
  revert w. induction pkgs as [|p pkgs IH]; intros w; simpl.
  - exists []. rewrite app_nil_r. destruct w; reflexivity.
  - unfold bind. rewrite save_package_run.
    destruct (IH {| db := save_package_db to_semver r c p (db w);
                    warnings := warnings w ++ save_package_warnings p (db w);
                    flushes := flushes w |}) as (ws & E).
    exists (save_package_warnings p (db w) ++ ws)%list.
    rewrite E. simpl. now rewrite app_assoc.
Qed.

Lemma save_packages_exec_db (r c : Z) (pkgs : list package) (w : World) :
  db (exec (_save_packages to_semver r pkgs c) w) = save_packages_db to_semver r c pkgs (db w).
Proof.
  destruct (save_packages_run r c pkgs w) as (ws & E). unfold exec. now rewrite E.
Qed.

Lemma save_packages_outcome (r c : Z) (pkgs : list package) (w : World) :
  outcome (_save_packages to_semver r pkgs c) w = Ok tt.
Proof.
  destruct (save_packages_run r c pkgs w) as (ws & E). unfold outcome. now rewrite E.
Qed.


Lemma save_packages_db_cons (r c : Z) (p : package) (pkgs : list package) (d : DB) :
  save_packages_db to_semver r c (p :: pkgs) d =
  save_packages_db to_semver r c pkgs (save_package_db to_semver r c p d).
Proof. reflexivity. Qed.


(** *** Frame: the tables that the reconciler leaves alone *)

Lemma save_package_db_catalog (r c : Z) (p : package) (d : DB) :
  packages (save_package_db to_semver r c p d) = packages d /\
  archs (save_package_db to_semver r c p d) = archs d /\
  osreleases (save_package_db to_semver r c p d) = osreleases d /\
  reportreleasedesktops (save_package_db to_semver r c p d) = reportreleasedesktops d.
Proof.
  unfold save_package_db.
  destruct (lookup_package d p) as [pk|].
  - destruct (get_reportpackage d r pk); simpl; auto.
  - destruct (lookup_unknown d r p); simpl; auto.
    destruct (get_arch_by_name d _); simpl; auto.
Qed.







End ReconcilerFacts.

(** ** Partition by catalog presence *)

Section Partition.

Context {semver : Type}.
Variable to_semver : string -> semver.

#[local] Abbreviation DB := (DB semver).




Lemma save_packages_db_reldesktops (r c : Z) (pkgs : list package) (d : DB) :
  reportreleasedesktops (save_packages_db to_semver r c pkgs d) = reportreleasedesktops d.
Proof.
  revert d. induction pkgs as [|p pkgs IH]; intros d; [reflexivity|].
  rewrite save_packages_db_cons, IH.
  apply (save_package_db_catalog to_semver).
Qed.





End Partition.

(** ** Counts *)

Section Counts.

Context {semver : Type}.
Variable to_semver : string -> semver.

#[local] Abbreviation DB := (DB semver).
#[local] Abbreviation World := (World semver).




(** The row created for a record has the key of the record, when its
    architecture is the one that the name of the record resolves to. *)
Lemma new_unknown_package_key (r c : Z) (p : package) (a : Arch) (d : DB) :
  get_arch_by_name d (p_architecture p) = Some a ->
  package_key r p (new_unknown_package to_semver r p a (role_of p) c) = true.
Proof.
  intros H. apply find_some in H as [_ H].
  unfold package_key, unknown_matches. simpl.
  now rewrite !Z.eqb_refl, !String.eqb_refl, H.
Qed.






End Counts.

(** ** Rows of other keys *)

Section OtherRows.

Context {A : Type}.
Variables (f g : A -> bool) (h : A -> A).

Lemma find_app_other (l : list A) (n : A) :
  f n = false -> find f (l ++ [n]) = find f l.
Proof.
  intros Hn. induction l as [|x l IH]; simpl; [now rewrite Hn|].
  destruct (f x); [reflexivity|exact IH].
Qed.

Lemma find_app_found (l added : list A) (x : A) :
  find f l = Some x -> find f (l ++ added) = Some x.
Proof.
  induction l as [|y l IH]; simpl; [discriminate|].
  destruct (f y); auto.
Qed.

Lemma find_update_first_other (l : list A) :
  (forall x, g x = true -> f x = false) -> (forall x, f (h x) = f x) ->
  find f (update_first g h l) = find f l.
Proof.
  intros Hd Hh. induction l as [|x l IH]; simpl; [reflexivity|].
  destruct (g x) eqn:G; simpl.
  - now rewrite Hh, (Hd x G).
  - destruct (f x); [reflexivity|exact IH].
Qed.

Lemma find_update_first_found (l : list A) (x : A) :
  (forall y, f (h y) = f y) -> find f l = Some x ->
  find f (update_first g h l) = Some x \/ find f (update_first g h l) = Some (h x).
Proof.
  intros Hh. induction l as [|y l IH]; simpl; [discriminate|].
  destruct (g y) eqn:G; simpl.
  - rewrite Hh. destruct (f y); [|auto]. intros E. injection E as <-. auto.
  - destruct (f y); auto.
Qed.

End OtherRows.

Section Independence.

Context {semver : Type}.
Variable to_semver : string -> semver.

#[local] Abbreviation DB := (DB semver).

Lemma keys_disjoint (r r' : Z) (q p : package) (u : ReportUnknownPackage semver) :
  same_key r q r' p = false -> package_key r q u = true -> package_key r' p u = false.
Proof.
  intros Hs Hq. destruct (package_key r' p u) eqn:Hp; [|reflexivity].
  exfalso. unfold package_key, unknown_matches in Hq, Hp.
  repeat (apply andb_true_iff in Hq; destruct Hq as [Hq ?]).
  repeat (apply andb_true_iff in Hp; destruct Hp as [Hp ?]).
  repeat match goal with
         | H : (_ =? _)%string = true |- _ => apply String.eqb_eq in H
         | H : (_ =? _) = true |- _ => apply Z.eqb_eq in H
         end.
  unfold same_key in Hs.
  replace r' with r in Hs by congruence.
  replace (role_of p) with (role_of q) in Hs by congruence.
  replace (p_name p) with (p_name q) in Hs by congruence.
  replace (p_epoch p) with (p_epoch q) in Hs by congruence.
  replace (p_version p) with (p_version q) in Hs by congruence.
  replace (p_release p) with (p_release q) in Hs by congruence.
  replace (p_architecture p) with (p_architecture q) in Hs by congruence.
  rewrite !Z.eqb_refl, !String.eqb_refl in Hs. discriminate.
Qed.

Lemma lookup_unknown_other (r r' c : Z) (q p : package) (d : DB) :
  same_key r q r' p = false ->
  lookup_unknown (save_package_db to_semver r c q d) r' p = lookup_unknown d r' p.
Proof.
  intros Hs. unfold save_package_db.
  destruct (lookup_package d q) as [pk|].
  - destruct (get_reportpackage d r pk); reflexivity.
  - destruct (lookup_unknown d r q) eqn:Hu.
    + unfold lookup_unknown. cbn [reportunknownpackages with_reportunknownpackages].
      apply find_update_first_other; [|reflexivity].
      intros u. apply keys_disjoint, Hs.
    + destruct (get_arch_by_name d (p_architecture q)) as [a|] eqn:Ha; [|reflexivity].
      unfold lookup_unknown. cbn [reportunknownpackages with_reportunknownpackages].
      apply find_app_other.
      apply (keys_disjoint r r' q p _ Hs), (new_unknown_package_key to_semver r c q a d Ha).
Qed.

Lemma lookup_unknown_others (r r' c : Z) (p : package) (pkgs : list package) :
  forallb (fun q => negb (same_key r q r' p)) pkgs = true ->
  forall d : DB,
    lookup_unknown (save_packages_db to_semver r c pkgs d) r' p = lookup_unknown d r' p.
Proof.
  induction pkgs as [|q pkgs IH]; intros H d; [reflexivity|].
  cbn [forallb] in H. apply andb_true_iff in H as [Hq H].
  rewrite save_packages_db_cons, (IH H).
  apply lookup_unknown_other. now apply negb_true_iff.
Qed.

(** An association that exists keeps its type through a pass. *)
Lemma reportpackage_type_step (r r' c : Z) (q : package) (pk : Package) (x : ReportPackage)
    (d : DB) :
  get_reportpackage d r' pk = Some x ->
  exists x', get_reportpackage (save_package_db to_semver r c q d) r' pk = Some x' /\
             rp_type x' = rp_type x.
Proof.
  intros Hx. unfold save_package_db.
  destruct (lookup_package d q) as [pq|].
  - destruct (get_reportpackage d r pq);
      unfold get_reportpackage in *; cbn [reportpackages with_reportpackages].
    + destruct (find_update_first_found (reportpackage_matches r' pk)
                  (reportpackage_matches r pq) (rp_add_count c) _ x
                  (fun y => eq_refl) Hx) as [E|E]; rewrite E; eauto.
    + rewrite (find_app_found _ _ _ _ Hx). eauto.
  - destruct (lookup_unknown d r q); [eauto|].
    destruct (get_arch_by_name d (p_architecture q)); eauto.
Qed.

End Independence.

(** ** A list, record by record *)

Section RecordByRecord.

Context {semver : Type}.
Variable to_semver : string -> semver.

#[local] Abbreviation DB := (DB semver).









(** *** The association count through a pass and a list *)



(** *** The aggregate count through a pass and a list *)




End RecordByRecord.







(** The end-to-end scenario: "foo" is not in the catalog, x86_64 is a known
    architecture; one aggregate with count 1 is made, keyed by the report,
    CRASHED and the identity of the record. *)
Example end_to_end_scenario :
  reportunknownpackages (db (exec (_save_packages text_semver 1 [sample_foo] 1) sample_world))
  = [{| up_report := 1; up_name := "foo"; up_epoch := 0; up_version := "1.0";
        up_release := "1.fc20"; up_semver := "1.0"; up_semrel := "1.fc20";
        up_arch := x86_64; up_type := "CRASHED"; up_count := 1 |}].
Proof. reflexivity. Qed.

(** ** The architecture check *)

Section ArchitectureCheck.

Context {semver : Type}.
Variable to_semver : string -> semver.

#[local] Abbreviation DB := (DB semver).
#[local] Abbreviation World := (World semver).








End ArchitectureCheck.






(** ** The policy check *)

Lemma scan_roles_spec (pkgs : list package) :
  forall affected : bool,
    scan_roles affected pkgs =
    if existsb illegal_role pkgs then Raise (FafError roles_message)
    else Ok (affected || existsb is_affected pkgs).
Proof.
  induction pkgs as [|p pkgs IH]; intros affected.
  - simpl. now rewrite orb_false_r.
  - cbn [scan_roles existsb]. unfold illegal_role at 1, is_affected at 1.
    destruct (p_package_role p) as [role|]; [|apply IH].
    destruct (existsb (String.eqb role) pkg_roles); cbn [negb orb]; [|reflexivity].
    rewrite IH. destruct (existsb illegal_role pkgs); [reflexivity|].
    destruct (role =? "affected")%string; cbn [orb]; [|reflexivity].
    now rewrite orb_true_r.
Qed.

Lemma existsb_eqb_In (role : string) (l : list string) :
  existsb (String.eqb role) l = true <-> In role l.
Proof.
  rewrite existsb_exists. split.
  - intros (x & Hx & E). apply String.eqb_eq in E. now subst.
  - intros H. exists role. split; [exact H|apply String.eqb_refl].
Qed.

Lemma illegal_role_iff (pkgs : list package) :
  existsb illegal_role pkgs = true <->
  exists p role, In p pkgs /\ p_package_role p = Some role /\ ~ In role pkg_roles.
Proof.
  rewrite existsb_exists. split.
  - intros (p & Hp & H). unfold illegal_role in H.
    destruct (p_package_role p) as [role|] eqn:E; [|discriminate].
    exists p, role. repeat split; auto.
    intros Hin. apply existsb_eqb_In in Hin. now rewrite Hin in H.
  - intros (p & role & Hp & E & Hn). exists p. split; [exact Hp|].
    unfold illegal_role. rewrite E.
    destruct (existsb (String.eqb role) pkg_roles) eqn:B; [|reflexivity].
    apply existsb_eqb_In in B. contradiction.
Qed.

Lemma no_affected_iff (pkgs : list package) :
  existsb is_affected pkgs = false <->
  forall p, In p pkgs -> p_package_role p <> Some "affected".
Proof.
  split.
  - intros H p Hp E.
    assert (existsb is_affected pkgs = true) as T; [|congruence].
    apply existsb_exists. exists p. split; [exact Hp|].
    unfold is_affected. now rewrite E.
  - intros H. destruct (existsb is_affected pkgs) eqn:B; [|reflexivity].
    apply existsb_exists in B as (p & Hp & Ha). exfalso. apply (H p Hp).
    unfold is_affected in Ha. destruct (p_package_role p) as [role|]; [|discriminate].
    apply String.eqb_eq in Ha. now subst.
Qed.

(** C5: the policy check changes nothing, whatever its outcome. On a list
    that passes the structural check it raises [FafError] exactly when some
    role tag is outside {affected, related, selinux_policy}, or no record
    has the role "affected" and unpackaged reports are not allowed;
    otherwise it returns [True]. A list of "related" records alone fails
    without the allowance and passes with it. *)
Theorem validate_packages_policy {semver : Type} (self : Fedora) (lens : column_lens)
    (pkgs : list package) (w : World semver) :
  exec (validate_packages self lens pkgs) w = w /\
  (packages_checker lens pkgs = Ok tt ->
   let result := outcome (validate_packages self lens pkgs) w in
   ((exists msg, result = Raise (FafError msg)) <->
    (exists p role, In p pkgs /\ p_package_role p = Some role /\ ~ In role pkg_roles) \/
    ((forall p, In p pkgs -> p_package_role p <> Some "affected") /\
     allow_unpackaged self = false)) /\
   ((exists msg, result = Raise (FafError msg)) \/ result = Ok true) /\
   ((forall p, In p pkgs -> p_package_role p = Some "related") ->
    result = if allow_unpackaged self then Ok true
             else Raise (FafError "uReport must contain affected package"))).
Proof.
  assert (Hrun : forall affected,
            (if negb (affected || allow_unpackaged self)
             then raise (FafError "uReport must contain affected package")
             else ret true) w =
            ((if negb (affected || allow_unpackaged self)
              then Raise (FafError "uReport must contain affected package")
              else Ok true) : result bool, w)).
  { intros affected. destruct (negb (affected || allow_unpackaged self)); reflexivity. }
  split.
  - unfold validate_packages, exec, bind, lift.
    destruct (packages_checker lens pkgs) as [[]|e]; [|reflexivity].
    destruct (scan_roles false pkgs) as [affected|e]; [|reflexivity].
    now rewrite Hrun.
  - intros Hcheck. cbv zeta.
    unfold validate_packages, outcome, bind, lift. rewrite Hcheck.
    rewrite scan_roles_spec. simpl orb.
    destruct (existsb illegal_role pkgs) eqn:Bad.
    + simpl. apply illegal_role_iff in Bad. split; [|split].
      * split; [intros _; left; exact Bad|intros _; eexists; reflexivity].
      * left. eexists. reflexivity.
      * intros Hrel. exfalso. destruct Bad as (p & role & Hp & E & Hn).
        rewrite (Hrel p Hp) in E. injection E as <-. apply Hn. simpl. auto.
    + rewrite Hrun. simpl fst.
      assert (Hbad : ~ exists p role,
                 In p pkgs /\ p_package_role p = Some role /\ ~ In role pkg_roles).
      { intros H. apply illegal_role_iff in H. congruence. }
      destruct (existsb is_affected pkgs) eqn:Aff; simpl.
      * split; [|split].
        -- split; [intros (msg & H); discriminate|].
           intros [H|[H _]]; [contradiction|].
           apply no_affected_iff in H. congruence.
        -- right. reflexivity.
        -- intros Hrel. exfalso.
           apply existsb_exists in Aff as (p & Hp & Ha).
           unfold is_affected in Ha. rewrite (Hrel p Hp) in Ha. discriminate.
      * pose proof (proj1 (no_affected_iff pkgs) Aff) as Hno.
        destruct (allow_unpackaged self) eqn:Allow; simpl.
        -- split; [|split].
           ++ split; [intros (msg & H); discriminate|].
              intros [H|[_ H]]; [contradiction|discriminate].
           ++ right. reflexivity.
           ++ reflexivity.
        -- split; [|split].
           ++ split; [intros _; right; auto|intros _; eexists; reflexivity].
           ++ left. eexists. reflexivity.
           ++ reflexivity.
Qed.

Lemma validate_packages_policy_witness :
  outcome (validate_packages {| allow_unpackaged := false |} sample_lens [sample_bash])
    sample_world = Raise (FafError "uReport must contain affected package") /\
  outcome (validate_packages {| allow_unpackaged := true |} sample_lens [sample_bash])
    sample_world = Ok true.
Proof.
  split.
  - destruct (validate_packages_policy {| allow_unpackaged := false |} sample_lens
                [sample_bash] sample_world) as [_ H].
    destruct (H eq_refl) as (_ & _ & Hrelated).
    apply Hrelated. intros p [<-|[]]. reflexivity.
  - destruct (validate_packages_policy {| allow_unpackaged := true |} sample_lens
                [sample_bash] sample_world) as [_ H].
    destruct (H eq_refl) as (_ & _ & Hrelated).
    apply Hrelated. intros p [<-|[]]. reflexivity.
Defined.

(** ** The report aggregator *)

Section Aggregator.

Context {semver : Type}.
Variable to_semver : string -> semver.

#[local] Abbreviation DB := (DB semver).
#[local] Abbreviation World := (World semver).



(** What follows the desktop step: the reconciler on the whole list, then
    the flush if asked for. It never raises. *)
Lemma reconcile_and_flush (r c : Z) (pkgs : list package) (flush : bool) (w : World) :
  exists ws,
    (_save_packages to_semver r pkgs c ;; if flush then session_flush else ret tt) w =
    (Ok tt, {| db := save_packages_db to_semver r c pkgs (db w);
               warnings := warnings w ++ ws;
               flushes := if flush then S (flushes w) else flushes w |}).
Proof.
  destruct (save_packages_run to_semver r c pkgs w) as (ws & E).
  exists ws. unfold bind. rewrite E. destruct flush; reflexivity.
Qed.

Lemma bind_run {A B : Type} (m : M A) (k : A -> M B) (w w' : World) (a : A) :
  m w = (Ok a, w') -> bind m k w = k a w'.
Proof. intros H. unfold bind. now rewrite H. Qed.

Lemma bind_raise {A B : Type} (m : M A) (k : A -> M B) (w w' : World) (e : exn) :
  m w = (Raise e, w') -> bind m k w = (Raise e, w').
Proof. intros H. unfold bind. now rewrite H. Qed.

(** The desktop step on a report with a desktop and a version. *)
Lemma desktop_aggregation_run (r c : Z) (desktop version : string) (w : World) :
  desktop_aggregation r {| u_desktop := Some desktop; u_version := Some version |} c w =
  (Ok tt,
   match get_osrelease (db w) nice_name version with
   | None =>
       {| db := db w;
          warnings := warnings w ++ ["Release 'Fedora " ++ version ++ "' not found"];
          flushes := flushes w |}
   | Some db_release =>
       {| db := with_reportreleasedesktops (db w)
                  match get_report_release_desktop (db w) r db_release desktop with
                  | None =>
                      (reportreleasedesktops (db w) ++
                       [{| rrd_report := r; rrd_release := db_release;
                           rrd_desktop := desktop; rrd_count := 0 + c |}])%list
                  | Some _ =>
                      update_first (reldesktop_matches r db_release desktop)
                        (rrd_add_count c) (reportreleasedesktops (db w))
                  end;
          warnings := warnings w;
          flushes := flushes w |}
   end).
Proof.
  unfold desktop_aggregation, bind, subscript, query, ret, log_warn, modify. simpl.
  destruct (get_osrelease (db w) nice_name version) as [rel|]; [|reflexivity].
  destruct (get_report_release_desktop (db w) r rel desktop); reflexivity.
Qed.


End Aggregator.




Example save_ureport_release_miss :
  let u := {| u_desktop := Some "gnome"; u_version := Some "99" |} in
  save_ureport text_semver 1 u [sample_bash] true 1 sample_world =
  (Ok tt,
   {| db := with_reportpackages sample_db
              [{| rp_report := 1; rp_installed_package := catalog_bash;
                  rp_count := 1; rp_type := "RELATED" |}];
      warnings := ["Release 'Fedora 99' not found"];
      flushes := 1 |}).
Proof. reflexivity. Qed.

Example save_ureport_release_hit :
  let u := {| u_desktop := Some "gnome"; u_version := Some "38" |} in
  reportreleasedesktops (db (exec (save_ureport text_semver 1 u [sample_foo] false 2) sample_world))
  = [{| rrd_report := 1; rrd_release := fedora_38; rrd_desktop := "gnome"; rrd_count := 2 |}].
Proof. reflexivity. Qed.




(** ** The build merger *)

Lemma ascii_compare_refl (c : ascii) : Ascii.compare c c = Eq.
Proof. unfold Ascii.compare. apply N.compare_refl. Qed.

Lemma string_compare_refl (s : string) : String.compare s s = Eq.
Proof.
  induction s as [|c s IH]; simpl; [reflexivity|]. now rewrite ascii_compare_refl.
Qed.

Lemma string_compare_lt_trans (s t u : string) :
  String.compare s t = Lt -> String.compare t u = Lt -> String.compare s u = Lt.
Proof.
  revert t u. induction s as [|a s IH]; intros [|b t] [|c u]; simpl; try discriminate; auto.
  unfold Ascii.compare.
  destruct (N.compare_spec (N_of_ascii a) (N_of_ascii b)) as [E1|L1|G1]; try discriminate;
    destruct (N.compare_spec (N_of_ascii b) (N_of_ascii c)) as [E2|L2|G2]; try discriminate;
    intros H1 H2.
  - rewrite E1, E2, N.compare_refl. now apply (IH t u).
  - rewrite E1. now apply N.compare_lt_iff in L2 as ->.
  - rewrite <- E2. now apply N.compare_lt_iff in L1 as ->.
  - assert (N_of_ascii a < N_of_ascii c)%N as L by lia.
    now apply N.compare_lt_iff in L as ->.
Qed.

Lemma string_ltb_leb (s t : string) : (s <? t)%string = true -> (s <=? t)%string = true.
Proof. unfold String.ltb, String.leb. destruct (String.compare s t); auto. Qed.

Lemma string_ltb_false_leb (s t : string) : (s <? t)%string = false -> (t <=? s)%string = true.
Proof.
  unfold String.ltb, String.leb. rewrite (String.compare_antisym s t).
  destruct (String.compare t s); simpl; auto.
Qed.

Lemma string_leb_trans (s t u : string) :
  (s <=? t)%string = true -> (t <=? u)%string = true -> (s <=? u)%string = true.
Proof.
  unfold String.leb.
  destruct (String.compare s t) eqn:E1; try discriminate;
    destruct (String.compare t u) eqn:E2; try discriminate; intros _ _.
  - apply String.compare_eq_iff in E1, E2. subst. now rewrite string_compare_refl.
  - apply String.compare_eq_iff in E1. subst. now rewrite E2.
  - apply String.compare_eq_iff in E2. subst. now rewrite E1.
  - now rewrite (string_compare_lt_trans s t u E1 E2).
Qed.

Lemma string_ltb_neq (s t : string) : (s <? t)%string = true -> (s =? t)%string = false.
Proof.
  intros H. apply String.eqb_neq. intros ->.
  unfold String.ltb in H. now rewrite string_compare_refl in H.
Qed.

Section SortedFacts.

Context {A : Type}.
Variable key : A -> string.

#[local] Abbreviation desc := (fun a b : A => (key b <=? key a)%string = true).

Lemma insert_desc_perm (x : A) (l : list A) : Permutation (insert_desc key x l) (x :: l).
Proof.
  induction l as [|y l IH]; simpl; [apply Permutation_refl|].
  destruct (key x <? key y)%string; [|apply Permutation_refl].
  eapply Permutation_trans; [apply perm_skip, IH|apply perm_swap].
Qed.

Lemma sorted_reverse_perm (l : list A) : Permutation (sorted_reverse key l) l.
Proof.
  induction l as [|x l IH]; simpl; [apply perm_nil|].
  eapply Permutation_trans; [apply insert_desc_perm|apply perm_skip, IH].
Qed.

Lemma insert_desc_sorted (x : A) (l : list A) :
  StronglySorted desc l -> StronglySorted desc (insert_desc key x l).
Proof.
  induction l as [|y l IH]; intros H; simpl.
  - constructor; constructor.
  - inversion H as [|? ? Hl Hy]; subst.
    destruct (key x <? key y)%string eqn:E.
    + constructor; [apply IH, Hl|].
      apply (Permutation_Forall (Permutation_sym (insert_desc_perm x l))).
      constructor; [now apply string_ltb_leb|exact Hy].
    + constructor; [exact H|].
      apply string_ltb_false_leb in E.
      constructor; [exact E|].
      eapply Forall_impl; [|exact Hy]. cbv beta. intros z Hz.
      exact (string_leb_trans _ _ _ Hz E).
Qed.

Lemma sorted_reverse_sorted (l : list A) : StronglySorted desc (sorted_reverse key l).
Proof.
  induction l as [|x l IH]; simpl; [constructor|]. now apply insert_desc_sorted.
Qed.

(** Stability: the entries with a given key come in the order they had. *)
Lemma insert_desc_filter (t : string) (x : A) (l : list A) :
  filter (fun a => (key a =? t)%string) (insert_desc key x l) =
  filter (fun a => (key a =? t)%string) (x :: l).
Proof.
  induction l as [|y l IH]; [reflexivity|].
  cbn [insert_desc]. destruct (key x <? key y)%string eqn:E; [|reflexivity].
  cbn [filter] in *. rewrite IH.
  destruct (key x =? t)%string eqn:Ex; [|reflexivity].
  apply String.eqb_eq in Ex. subst t.
  rewrite String.eqb_sym, (string_ltb_neq _ _ E). reflexivity.
Qed.

Lemma sorted_reverse_stable (t : string) (l : list A) :
  filter (fun a => (key a =? t)%string) (sorted_reverse key l) =
  filter (fun a => (key a =? t)%string) l.
Proof.
  induction l as [|x l IH]; [reflexivity|].
  cbn [sorted_reverse fold_right]. fold (sorted_reverse key l).
  rewrite insert_desc_filter. cbn [filter]. now rewrite IH.
Qed.

End SortedFacts.

Lemma normalize_build_normalized (b : koji_build) (o : released_build) :
  normalize_build b = Ok o -> normalized b o.
Proof.
  unfold normalize_build, normalized.
  destruct (Strptime.strptime (b_completion_time b)) as [t|e]; [|discriminate].
  intros H. injection H as <-. simpl. repeat split.
Qed.

Lemma map_result_Forall2 {A B : Type} (f : A -> result B) (l : list A) :
  forall out, map_result f l = Ok out -> Forall2 (fun a b => f a = Ok b) l out.
Proof.
  induction l as [|x l IH]; simpl; intros out H.
  - injection H as <-. constructor.
  - destruct (f x) as [y|e] eqn:E; [|discriminate].
    destruct (map_result f l) as [ys|e]; [|discriminate].
    injection H as <-. constructor; [exact E|now apply IH].
Qed.

Lemma map_result_total {A B : Type} (f : A -> result B) (l : list A) :
  (forall a, In a l -> exists b, f a = Ok b) -> exists out, map_result f l = Ok out.
Proof.
  induction l as [|x l IH]; simpl; intros H; [now exists []|].
  destruct (H x (or_introl eq_refl)) as (y & ->).
  destruct IH as (ys & ->); [intros a Ha; apply H; now right|].
  now exists (y :: ys).
Qed.

(** ** Zero-padded completion times: text order is time order *)

Lemma digit_char_code (d : Z) : 0 <= d <= 9 -> PyStr.code (digit_char d) = Z.to_N (48 + d).
Proof. intros H. unfold digit_char. apply code_ascii_of_N. lia. Qed.

Lemma digit_char_compare (d e : Z) :
  0 <= d <= 9 -> 0 <= e <= 9 -> Ascii.compare (digit_char d) (digit_char e) = (d ?= e).
Proof.
  intros Hd He. unfold Ascii.compare.
  change (N_of_ascii (digit_char d)) with (PyStr.code (digit_char d)).
  change (N_of_ascii (digit_char e)) with (PyStr.code (digit_char e)).
  rewrite !digit_char_code by assumption.
  rewrite Z2N.inj_compare by lia. apply Z.add_compare_mono_l.
Qed.

(** Comparing two numbers is comparing their quotients, then their
    remainders. *)
Lemma compare_split (b q1 r1 q2 r2 : Z) (R : comparison) :
  0 <= r1 < b -> 0 <= r2 < b ->
  match q1 ?= q2 with
  | Eq => match r1 ?= r2 with Eq => R | o => o end
  | o => o
  end =
  match b * q1 + r1 ?= b * q2 + r2 with Eq => R | o => o end.
Proof.
  intros H1 H2.
  destruct (Z.compare_spec q1 q2) as [Eq|Lq|Gq].
  - subst q2. rewrite Z.add_compare_mono_l. reflexivity.
  - assert (b * q1 + r1 < b * q2 + r2) as L by nia.
    apply Z.compare_lt_iff in L. now rewrite L.
  - assert (b * q2 + r2 < b * q1 + r1) as L by nia.
    apply Z.compare_gt_iff in L. now rewrite L.
Qed.

Lemma pad2_compare (x y : Z) (r s : string) :
  0 <= x < 100 -> 0 <= y < 100 ->
  String.compare (pad2 x r) (pad2 y s) =
  match x ?= y with Eq => String.compare r s | o => o end.
Proof.
  intros Hx Hy. unfold pad2. cbn [String.compare].
  rewrite !digit_char_compare by (Z.div_mod_to_equations; lia).
  rewrite (Z.div_mod x 10) at 3 by lia. rewrite (Z.div_mod y 10) at 3 by lia.
  rewrite <- (compare_split 10) by (Z.div_mod_to_equations; lia).
  destruct (x / 10 ?= y / 10); reflexivity.
Qed.

Lemma pad4_compare (x y : Z) (r s : string) :
  0 <= x < 10000 -> 0 <= y < 10000 ->
  String.compare (pad4 x r) (pad4 y s) =
  match x ?= y with Eq => String.compare r s | o => o end.
Proof.
  intros Hx Hy. unfold pad4.
  rewrite pad2_compare by (Z.div_mod_to_equations; lia).
  rewrite (Z.div_mod x 100) at 3 by lia. rewrite (Z.div_mod y 100) at 3 by lia.
  rewrite <- (compare_split 100) by (Z.div_mod_to_equations; lia).
  destruct (x / 100 ?= y / 100); try reflexivity.
  apply pad2_compare; Z.div_mod_to_equations; lia.
Qed.

Lemma pad6_compare (x y : Z) (r s : string) :
  0 <= x < 1000000 -> 0 <= y < 1000000 ->
  String.compare (pad6 x r) (pad6 y s) =
  match x ?= y with Eq => String.compare r s | o => o end.
Proof.
  intros Hx Hy. unfold pad6.
  rewrite pad2_compare by (Z.div_mod_to_equations; lia).
  rewrite (Z.div_mod x 10000) at 3 by lia. rewrite (Z.div_mod y 10000) at 3 by lia.
  rewrite <- (compare_split 10000) by (Z.div_mod_to_equations; lia).
  destruct (x / 10000 ?= y / 10000); try reflexivity.
  apply pad4_compare; Z.div_mod_to_equations; lia.
Qed.

(** The ranges of the fields of a timestamp that exists. *)
Lemma valid_ranges (t : datetime) :
  Strptime.valid t = true ->
  1 <= year t <= 9999 /\ 1 <= month t <= 12 /\ 1 <= day t <= 31 /\
  0 <= hour t <= 23 /\ 0 <= minute t <= 59 /\ 0 <= second t <= 59 /\
  0 <= microsecond t <= 999999.
Proof.
  unfold Strptime.valid. intros H.
  repeat (apply andb_true_iff in H; destruct H as [H ?]).
  repeat match goal with
         | H : (_ <=? _) = true |- _ => apply Z.leb_le in H
         end.
  assert (Strptime.days_in_month (year t) (month t) <= 31).
  { unfold Strptime.days_in_month.
    repeat match goal with |- context [if ?b then _ else _] => destruct b end; lia. }
  lia.
Qed.

(** On zero-padded texts the order of the texts is the order of the
    timestamps. *)
Lemma padded_text_compare (s t : datetime) :
  Strptime.valid s = true -> Strptime.valid t = true ->
  String.compare (padded_text s) (padded_text t) = datetime_compare s t.
Proof.
  intros Hs Ht.
  apply valid_ranges in Hs. apply valid_ranges in Ht.
  unfold padded_text, datetime_compare, datetime_key. cbn [lex_compare].
  rewrite pad4_compare by lia. destruct (year s ?= year t); try reflexivity.
  cbn [String.compare]. rewrite ascii_compare_refl.
  rewrite pad2_compare by lia. destruct (month s ?= month t); try reflexivity.
  cbn [String.compare]. rewrite ascii_compare_refl.
  rewrite pad2_compare by lia. destruct (day s ?= day t); try reflexivity.
  cbn [String.compare]. rewrite ascii_compare_refl.
  rewrite pad2_compare by lia. destruct (hour s ?= hour t); try reflexivity.
  cbn [String.compare]. rewrite ascii_compare_refl.
  rewrite pad2_compare by lia. destruct (minute s ?= minute t); try reflexivity.
  cbn [String.compare]. rewrite ascii_compare_refl.
  rewrite pad2_compare by lia. destruct (second s ?= second t); try reflexivity.
  cbn [String.compare]. rewrite ascii_compare_refl.
  rewrite pad6_compare by lia. destruct (microsecond s ?= microsecond t); reflexivity.
Qed.

(** *** Parsing a zero-padded text gives back its timestamp *)

Lemma in_range_digit_char (lo hi : N) (d : Z) :
  0 <= d <= 9 ->
  PyStr.in_range lo hi (digit_char d) =
  ((lo <=? Z.to_N (48 + d)) && (Z.to_N (48 + d) <=? hi))%N.
Proof. intros H. unfold PyStr.in_range. now rewrite digit_char_code. Qed.

Lemma is_decimal_digit_char (d : Z) : 0 <= d <= 9 -> PyStr.is_decimal_char (digit_char d) = true.
Proof.
  intros H. unfold PyStr.is_decimal_char. rewrite in_range_digit_char by assumption.
  apply andb_true_iff. split; apply N.leb_le; lia.
Qed.

Lemma digit_value_digit_char (d : Z) : 0 <= d <= 9 -> PyStr.digit_value (digit_char d) = d.
Proof. intros H. unfold PyStr.digit_value. rewrite digit_char_code by assumption. lia. Qed.

Lemma isspace_digit_char (d : Z) : 0 <= d <= 9 -> Strptime.isspace (digit_char d) = false.
Proof.
  intros H. unfold Strptime.isspace. rewrite !in_range_digit_char, !digit_char_code by assumption.
  repeat (apply orb_false_iff; split); try (apply andb_false_iff; right; apply N.leb_gt; lia);
    apply N.eqb_neq; lia.
Qed.

Lemma pbind_any_digit {A : Type} (k : Z -> Strptime.parser A) (d : Z) (s : string) :
  0 <= d <= 9 ->
  Strptime.pbind (Strptime.digit 48 57) k (String (digit_char d) s) = k d s.
Proof.
  intros H. unfold Strptime.digit, Strptime.pchar, Strptime.pret, Strptime.pbind.
  cbv beta iota.
  rewrite (is_decimal_digit_char d H : PyStr.in_range 48 57 (digit_char d) = true).
  cbn [flat_map fst snd app].
  rewrite digit_value_digit_char by assumption. now rewrite app_nil_r.
Qed.

Lemma pbind_lit {A : Type} (k : unit -> Strptime.parser A) (n : N) (s : string) :
  (n < 256)%N ->
  Strptime.pbind (Strptime.lit n) k (String (ascii_of_N n) s) = k tt s.
Proof.
  intros H. unfold Strptime.lit, Strptime.pchar, Strptime.pret, Strptime.pbind.
  cbv beta iota.
  rewrite code_ascii_of_N by assumption. rewrite N.eqb_refl.
  cbn [flat_map fst snd app]. now rewrite app_nil_r.
Qed.

Lemma pY_padded {A : Type} (k : Z -> Strptime.parser A) (y : Z) (rest : string) :
  0 <= y <= 9999 ->
  Strptime.pbind Strptime.pY k (pad4 y rest) = k y rest.
Proof.
  intros H. unfold Strptime.pY, pad4, pad2. unfold Strptime.pbind at 1.
  rewrite !pbind_any_digit by (Z.div_mod_to_equations; lia).
  unfold Strptime.pret. cbn [flat_map fst snd app]. rewrite app_nil_r.
  f_equal. Z.div_mod_to_equations. lia.
Qed.

Tactic Notation "by_cases" constr(n) integer(bound) :=
  let E := fresh "E" in
  let i := fresh "i" in
  assert (E : n = Z.of_nat (Z.to_nat n)) by lia;
  rewrite E in *; clear E;
  generalize dependent (Z.to_nat n); intros i; intros;
  do bound (destruct i as [|i];
            [first [exfalso; lia | cbn; rewrite ?app_nil_r; reflexivity]|]);
  exfalso; lia.

Lemma pm_padded {A : Type} (k : Z -> Strptime.parser A) (n : Z) (rest : string) :
  1 <= n <= 12 ->
  Strptime.pbind Strptime.pm (fun m => Strptime.pbind (Strptime.lit 45) (fun _ => k m))
    (pad2 n (String "-" rest)) = k n rest.
Proof. intros H. by_cases n 13. Qed.

Lemma pd_padded {A : Type} (k : Z -> Strptime.parser A) (n : Z) (c : ascii) (rest : string) :
  1 <= n <= 31 -> Strptime.isspace c = false ->
  Strptime.pbind Strptime.pd (fun d => Strptime.pbind Strptime.spaces_plus (fun _ => k d))
    (pad2 n (String " " (String c rest))) = k n (String c rest).
Proof.
  intros H Hc.
  assert (E : n = Z.of_nat (Z.to_nat n)) by lia.
  rewrite E in *; clear E.
  generalize dependent (Z.to_nat n); intros i; intros.
  do 32 (destruct i as [|i];
            [first [exfalso; lia
                   | cbn -[Strptime.isspace]; rewrite Hc; cbn; rewrite ?app_nil_r; reflexivity]|]).
  exfalso; lia.
Qed.

Lemma pH_padded {A : Type} (k : Z -> Strptime.parser A) (n : Z) (rest : string) :
  0 <= n <= 23 ->
  Strptime.pbind Strptime.pH (fun m => Strptime.pbind (Strptime.lit 58) (fun _ => k m))
    (pad2 n (String ":" rest)) = k n rest.
Proof. intros H. by_cases n 24. Qed.

Lemma pM_padded {A : Type} (k : Z -> Strptime.parser A) (n : Z) (rest : string) :
  0 <= n <= 59 ->
  Strptime.pbind Strptime.pM (fun m => Strptime.pbind (Strptime.lit 58) (fun _ => k m))
    (pad2 n (String ":" rest)) = k n rest.
Proof. intros H. by_cases n 60. Qed.

Lemma pS_padded {A : Type} (k : Z -> Strptime.parser A) (n : Z) (rest : string) :
  0 <= n <= 59 ->
  Strptime.pbind Strptime.pS (fun m => Strptime.pbind (Strptime.lit 46) (fun _ => k m))
    (pad2 n (String "." rest)) = k n rest.
Proof. intros H. by_cases n 60. Qed.


Lemma pf_padded (f : Z) :
  0 <= f <= 999999 ->
  exists junk, Strptime.pf (pad6 f EmptyString) = (f, EmptyString) :: junk.
Proof.
  intros H. unfold pad6, pad4, pad2, Strptime.pf.
  rewrite is_decimal_digit_char by (Z.div_mod_to_equations; lia).
  cbn [Strptime.more_digits].
  rewrite !is_decimal_digit_char by (Z.div_mod_to_equations; lia).
  rewrite !digit_value_digit_char by (Z.div_mod_to_equations; lia).
  cbn [app]. eexists. f_equal. f_equal.
  change (Z.of_nat (5 - 1 - 1 - 1 - 1 - 1)) with 0.
  Z.div_mod_to_equations. lia.
Qed.

Lemma pd_padded_hour {A : Type} (k : Z -> Strptime.parser A) (n h : Z) (rest : string) :
  1 <= n <= 31 -> 0 <= h <= 99 ->
  Strptime.pbind Strptime.pd (fun d => Strptime.pbind Strptime.spaces_plus (fun _ => k d))
    (pad2 n (String " " (pad2 h rest))) = k n (pad2 h rest).
Proof.
  intros Hn Hh.
  change (pad2 h rest) with (String (digit_char (h / 10)) (String (digit_char (h mod 10)) rest)).
  apply pd_padded; [exact Hn|].
  apply isspace_digit_char. Z.div_mod_to_equations. lia.
Qed.

Lemma strptime_padded (t : datetime) :
  Strptime.valid t = true -> Strptime.strptime (padded_text t) = Ok t.
Proof.
  intros Hv. pose proof (valid_ranges t Hv) as (HY & Hm & Hd & HH & HM & HS & Hf).
  unfold Strptime.strptime, Strptime.fields, padded_text.
  rewrite pY_padded by lia.
  rewrite (pbind_lit _ 45) by reflexivity.
  rewrite pm_padded by lia.
  rewrite pd_padded_hour by lia.
  rewrite pH_padded by lia.
  rewrite pM_padded by lia.
  rewrite pS_padded by lia.
  destruct (pf_padded (microsecond t)) as (junk & E); [lia|].
  unfold Strptime.pbind. rewrite E. cbn [flat_map fst snd Strptime.pret app].
  destruct t; cbn in *. now rewrite Hv.
Qed.

Lemma padded_text_inj (s t : datetime) :
  Strptime.valid s = true -> Strptime.valid t = true ->
  padded_text s = padded_text t -> s = t.
Proof.
  intros Hs Ht E. apply strptime_padded in Hs, Ht. rewrite E in Hs. congruence.
Qed.

(** The timestamp of the output record of a zero-padded raw record. *)
Lemma normalized_padded (b : koji_build) (o : released_build) (t : datetime) :
  Strptime.valid t = true -> b_completion_time b = padded_text t ->
  normalized b o -> rb_completion_time o = t.
Proof.
  intros Hv E (_ & _ & _ & _ & _ & H).
  rewrite E, (strptime_padded t Hv) in H. congruence.
Qed.

Lemma padded_leb (s t : datetime) :
  Strptime.valid s = true -> Strptime.valid t = true ->
  (padded_text s <=? padded_text t)%string = datetime_leb s t.
Proof.
  intros Hs Ht. unfold String.leb, datetime_leb.
  now rewrite padded_text_compare.
Qed.

Lemma padded_later_first (b : koji_build) (o : released_build)
    (bs : list koji_build) (os : list released_build) :
  is_padded b -> normalized b o ->
  Forall2 normalized bs os -> Forall is_padded bs -> Forall (text_desc b) bs ->
  forallb (fun y => datetime_leb (rb_completion_time y) (rb_completion_time o)) os = true.
Proof.
  intros (t & Hv & E) Hn H. induction H as [|b' y bs os Hn' H IH]; intros Hp Hd.
  - reflexivity.
  - inversion Hp as [|? ? (t' & Hv' & E') Hp']; subst.
    inversion Hd as [|? ? Hd1 Hd']; subst.
    cbn [forallb]. rewrite (IH Hp' Hd'), andb_true_r.
    rewrite (normalized_padded b o t Hv E Hn), (normalized_padded b' y t' Hv' E' Hn').
    unfold text_desc in Hd1. rewrite E, E' in Hd1.
    now rewrite <- padded_leb.
Qed.

Lemma padded_chronological (raws : list koji_build) (out : list released_build) :
  Forall2 normalized raws out -> Forall is_padded raws -> StronglySorted text_desc raws ->
  chronological_desc out = true.
Proof.
  intros H. induction H as [|b o bs os Hn H IH]; intros Hp Hs; [reflexivity|].
  inversion Hp as [|? ? Hb Hp']; subst.
  inversion Hs as [|? ? Hs' Hd]; subst.
  cbn [chronological_desc].
  now rewrite (padded_later_first b o bs os Hb Hn H Hp' Hd), (IH Hp' Hs').
Qed.

(** C6, as the code has it: the merger takes every record of both lists,
    none dropped and none merged, in descending order of the completion-time
    text (the sort key is the text, compared character by character),
    records with the same text in input order, the first list before the
    second; each is normalized, a null epoch to 0, the completion time
    parsed with the fixed format, the other fields as they are. It returns
    when every completion time parses. When every completion time is
    zero-padded, the order of the texts is the order of the timestamps, and
    the result is ordered by completion timestamp, most recent first. *)
Theorem merge_builds_order (builds_release builds_updates : list koji_build) :
  let raws := sorted_reverse b_completion_time (builds_release ++ builds_updates) in
  Permutation raws (builds_release ++ builds_updates) /\
  StronglySorted text_desc raws /\
  (forall t : string,
     filter (fun b => (b_completion_time b =? t)%string) raws =
     filter (fun b => (b_completion_time b =? t)%string) (builds_release ++ builds_updates)) /\
  (forall out : list released_build,
     merge_builds builds_release builds_updates = Ok out ->
     Forall2 normalized raws out /\
     List.length out = (List.length builds_release + List.length builds_updates)%nat) /\
  ((forall b, In b (builds_release ++ builds_updates) ->
      exists t, Strptime.strptime (b_completion_time b) = Ok t) ->
   exists out, merge_builds builds_release builds_updates = Ok out) /\
  (Forall is_padded (builds_release ++ builds_updates) ->
   exists out, merge_builds builds_release builds_updates = Ok out /\
               chronological_desc out = true).
Proof.
  assert (Htotal : (forall b, In b (builds_release ++ builds_updates) ->
                      exists t, Strptime.strptime (b_completion_time b) = Ok t) ->
                   exists out, merge_builds builds_release builds_updates = Ok out).
  { intros Hparse. unfold merge_builds. apply map_result_total.
    intros b Hb.
    apply (Permutation_in _ (sorted_reverse_perm b_completion_time _)) in Hb.
    destruct (Hparse b Hb) as (t & Ht).
    unfold normalize_build. rewrite Ht. eexists. reflexivity. }
  cbv zeta. split; [|split; [|split; [|split; [|split]]]].
  - apply sorted_reverse_perm.
  - apply (sorted_reverse_sorted b_completion_time).
  - intros t. apply sorted_reverse_stable.
  - intros out H. unfold merge_builds in H.
    apply map_result_Forall2 in H. split.
    + eapply Forall2_impl; [|exact H]. apply normalize_build_normalized.
    + rewrite <- (Forall2_length H), <- length_app.
      apply Permutation_length, sorted_reverse_perm.
  - exact Htotal.
  - intros Hp.
    destruct Htotal as (out & Hout).
    { intros b Hb. rewrite Forall_forall in Hp.
      destruct (Hp b Hb) as (t & Hv & E).
      exists t. rewrite E. now apply strptime_padded. }
    exists out. split; [exact Hout|].
    unfold merge_builds in Hout. apply map_result_Forall2 in Hout.
    apply (padded_chronological
             (sorted_reverse b_completion_time (builds_release ++ builds_updates))).
    + eapply Forall2_impl; [|exact Hout]. apply normalize_build_normalized.
    + apply (Permutation_Forall
               (Permutation_sym (sorted_reverse_perm b_completion_time _)) Hp).
    + apply (sorted_reverse_sorted b_completion_time).
Qed.

Example merge_builds_spec_example :
  merge_builds [build_january; build_march] [build_february] =
  Ok [released_at "bash-5.2-3.fc38" 0 (midnight 2023 3 1);
      released_at "bash-5.2-2.fc38" 0 (midnight 2023 2 1);
      released_at "bash-5.2-1.fc38" 0 (midnight 2023 1 1)].
Proof. reflexivity. Qed.

Lemma merge_builds_order_witness :
  Forall2 normalized
    (sorted_reverse b_completion_time ([build_january; build_march] ++ [build_february]))
    [released_at "bash-5.2-3.fc38" 0 (midnight 2023 3 1);
     released_at "bash-5.2-2.fc38" 0 (midnight 2023 2 1);
     released_at "bash-5.2-1.fc38" 0 (midnight 2023 1 1)] /\
  (exists out, merge_builds [build_january; build_march] [build_february] = Ok out) /\
  (exists out, merge_builds [build_january; build_march] [build_february] = Ok out /\
               chronological_desc out = true).
Proof.
  destruct (merge_builds_order [build_january; build_march] [build_february])
    as (_ & _ & _ & Hout & Htotal & Hpadded).
  split; [|split].
  - apply (Hout _ eq_refl).
  - apply Htotal. intros b [<-|[<-|[<-|[]]]]; eexists; reflexivity.
  - apply Hpadded. repeat constructor.
    + exists (midnight 2023 1 1). split; reflexivity.
    + exists (midnight 2023 3 1). split; reflexivity.
    + exists (midnight 2023 2 1). split; reflexivity.
Defined.

(** C6 as stated, on two builds whose completion times are written without
    zero padding: "2023-9-01 ..." sorts before "2023-10-01 ..." as text, so
    the build of September comes first, and the result is not ordered by
    completion timestamp, most recent first. *)
Lemma merge_builds_not_chronological :
  ~ (forall (builds_release builds_updates : list koji_build) (out : list released_build),
       merge_builds builds_release builds_updates = Ok out ->
       chronological_desc out = true).
Proof.
  intros H.
  specialize (H [build_september] [build_october]
                [released_at "bash-5.2-1.fc38" 0 (midnight 2023 9 1);
                 released_at "bash-5.2-2.fc38" 1 (midnight 2023 10 1)]
                eq_refl).
  discriminate H.
Qed.

(** * Further properties of the reconciler *)

Section ReconcilerMore.

Context {semver : Type}.
Variable to_semver : string -> semver.

#[local] Abbreviation DB := (DB semver).
#[local] Abbreviation World := (World semver).



End ReconcilerMore.



(** X3: reconciling a list in two batches is reconciling it in one call,
    and the empty list changes nothing. *)
Theorem save_packages_batches {semver : Type} (to_semver : string -> semver)
    (r c : Z) (l1 l2 : list package) (w : World semver) :
  _save_packages to_semver r (l1 ++ l2) c w =
    (_save_packages to_semver r l1 c ;; _save_packages to_semver r l2 c) w /\
  _save_packages to_semver r [] c w = (Ok tt, w).
Proof.
  split; [|reflexivity].
  revert w. induction l1 as [|p l1 IH]; intros w; [reflexivity|].
  cbn [app _save_packages]. unfold bind at 1 2 3.
  rewrite save_package_run. apply IH.
Qed.

(** ** Rows are kept *)

Section Grows.

Context {A : Type}.
Variable kept : A -> A -> Prop.
Hypothesis kept_refl : forall x, kept x x.
Hypothesis kept_trans : forall x y z, kept x y -> kept y z -> kept x z.

Lemma Forall2_kept_refl (l : list A) : Forall2 kept l l.
Proof. induction l; constructor; auto. Qed.

Lemma grows_refl (l : list A) : grows kept l l.
Proof. exists l, []. split; [now rewrite app_nil_r|apply Forall2_kept_refl]. Qed.

Lemma grows_app (l added : list A) : grows kept l (l ++ added).
Proof. exists l, added. split; [reflexivity|apply Forall2_kept_refl]. Qed.

Lemma grows_update_first (f : A -> bool) (g : A -> A) (l : list A) :
  (forall x, kept x (g x)) -> grows kept l (update_first f g l).
Proof.
  intros Hg. exists (update_first f g l), []. split; [now rewrite app_nil_r|].
  induction l as [|x l IH]; simpl; [constructor|].
  destruct (f x); constructor; auto. apply Forall2_kept_refl.
Qed.

Lemma Forall2_kept_trans (l1 l2 l3 : list A) :
  Forall2 kept l1 l2 -> Forall2 kept l2 l3 -> Forall2 kept l1 l3.
Proof.
  intros H. revert l3. induction H as [|x y l1 l2 Hxy H IH]; intros l3 H3.
  - inversion H3. constructor.
  - inversion H3 as [|? z ? l3' Hyz H3']; subst. constructor; eauto.
Qed.

Lemma grows_trans (l1 l2 l3 : list A) :
  grows kept l1 l2 -> grows kept l2 l3 -> grows kept l1 l3.
Proof.
  intros (rows & added & -> & H12) (rows' & added' & -> & H23).
  apply Forall2_app_inv_l in H23 as (r1 & r2 & Hr1 & Hr2 & ->).
  exists r1, (r2 ++ added')%list. split; [now rewrite app_assoc|].
  eapply Forall2_kept_trans; eassumption.
Qed.

End Grows.

Section Kept.

Context {semver : Type}.
Variable to_semver : string -> semver.

#[local] Abbreviation DB := (DB semver).

Lemma association_kept_refl (x : ReportPackage) : association_kept x x.
Proof. unfold association_kept. repeat split; lia. Qed.

Lemma association_kept_trans (x y z : ReportPackage) :
  association_kept x y -> association_kept y z -> association_kept x z.
Proof. unfold association_kept. intuition (try congruence; lia). Qed.

Lemma aggregate_kept_refl (x : ReportUnknownPackage semver) : aggregate_kept x x.
Proof. unfold aggregate_kept. repeat split; lia. Qed.

Lemma aggregate_kept_trans (x y z : ReportUnknownPackage semver) :
  aggregate_kept x y -> aggregate_kept y z -> aggregate_kept x z.
Proof. unfold aggregate_kept. intuition (try congruence; lia). Qed.

Lemma save_package_db_grows (r c : Z) (p : package) (d : DB) :
  0 <= c ->
  grows association_kept (reportpackages d)
    (reportpackages (save_package_db to_semver r c p d)) /\
  grows aggregate_kept (reportunknownpackages d)
    (reportunknownpackages (save_package_db to_semver r c p d)).
Proof.
  intros Hc. unfold save_package_db.
  destruct (lookup_package d p) as [pk|].
  - destruct (get_reportpackage d r pk); cbn [reportpackages reportunknownpackages
      with_reportpackages]; split;
      try apply (grows_refl _ aggregate_kept_refl).
    + apply (grows_update_first _ association_kept_refl).
      intros x. unfold association_kept, rp_add_count. simpl. repeat split; lia.
    + apply (grows_app _ association_kept_refl).
  - destruct (lookup_unknown d r p);
      [|destruct (get_arch_by_name d (p_architecture p))];
      cbn [reportpackages reportunknownpackages with_reportunknownpackages]; split;
      try apply (grows_refl _ association_kept_refl);
      try apply (grows_refl _ aggregate_kept_refl).
    + apply (grows_update_first _ aggregate_kept_refl).
      intros x. unfold aggregate_kept, up_add_count. simpl. repeat split; lia.
    + apply (grows_app _ aggregate_kept_refl).
Qed.

Lemma save_packages_db_grows (r c : Z) (pkgs : list package) :
  0 <= c ->
  forall d : DB,
    grows association_kept (reportpackages d)
      (reportpackages (save_packages_db to_semver r c pkgs d)) /\
    grows aggregate_kept (reportunknownpackages d)
      (reportunknownpackages (save_packages_db to_semver r c pkgs d)).
Proof.
  intros Hc. induction pkgs as [|p pkgs IH]; intros d.
  - split; [apply (grows_refl _ association_kept_refl)|apply (grows_refl _ aggregate_kept_refl)].
  - rewrite save_packages_db_cons.
    destruct (save_package_db_grows r c p d Hc) as [H1 H2].
    destruct (IH (save_package_db to_semver r c p d)) as [H3 H4].
    split.
    + exact (grows_trans _ association_kept_trans _ _ _ H1 H3).
    + exact (grows_trans _ aggregate_kept_trans _ _ _ H2 H4).
Qed.

End Kept.

(** X4: with a non-negative increment the reconciler only adds: every
    association and every aggregate that was in the store is still there, at
    its place, for the same report and package or identity and with the same
    type, and its count has not gone down; new rows come after them. *)
Theorem save_packages_keeps_rows {semver : Type} (to_semver : string -> semver)
    (r c : Z) (pkgs : list package) (w : World semver) :
  0 <= c ->
  let w1 := exec (_save_packages to_semver r pkgs c) w in
  grows association_kept (reportpackages (db w)) (reportpackages (db w1)) /\
  grows aggregate_kept (reportunknownpackages (db w)) (reportunknownpackages (db w1)).
Proof.
  intros Hc. cbv zeta. rewrite save_packages_exec_db.
  now apply save_packages_db_grows.
Qed.

Lemma save_packages_keeps_rows_witness :
  grows association_kept (reportpackages (db world_with_foo))
    (reportpackages (db (exec (_save_packages text_semver 1 [sample_bash; sample_foo] 2)
                           world_with_foo))) /\
  grows aggregate_kept (reportunknownpackages (db world_with_foo))
    (reportunknownpackages (db (exec (_save_packages text_semver 1 [sample_bash; sample_foo] 2)
                                  world_with_foo))).
Proof.
  apply (save_packages_keeps_rows text_semver 1 2 [sample_bash; sample_foo] world_with_foo).
  lia.
Defined.

(** X5: the type of an association is set when it is created and never
    after: once a report has an association with a catalog package, any
    further reconciliation, for any report, records and increment, finds the
    association with the type it had, also when a record names the package
    with another role. *)
Theorem association_keeps_type {semver : Type} (to_semver : string -> semver)
    (r r' c : Z) (pkgs : list package) (pk : Package) (x : ReportPackage)
    (w : World semver) :
  get_reportpackage (db w) r' pk = Some x ->
  exists x',
    get_reportpackage (db (exec (_save_packages to_semver r pkgs c) w)) r' pk = Some x' /\
    rp_type x' = rp_type x.
Proof.
  rewrite save_packages_exec_db. generalize (db w) as d. revert x.
  induction pkgs as [|q pkgs IH]; intros x d Hx; [eauto|].
  rewrite save_packages_db_cons.
  destruct (reportpackage_type_step to_semver r r' c q pk x d Hx) as (x1 & H1 & T1).
  destruct (IH x1 _ H1) as (x2 & H2 & T2).
  exists x2. split; [exact H2|congruence].
Qed.

(** X6: a record touches the aggregate of its own key alone: the aggregate
    of a report and record, and its absence, are as before after any list of
    records none of which has the same key (report, role, name, epoch,
    version, release, architecture). The same identity under another role
    is another aggregate. *)
Theorem aggregates_are_independent {semver : Type} (to_semver : string -> semver)
    (r r' c : Z) (p : package) (pkgs : list package) (w : World semver) :
  forallb (fun q => negb (same_key r q r' p)) pkgs = true ->
  lookup_unknown (db (exec (_save_packages to_semver r pkgs c) w)) r' p =
  lookup_unknown (db w) r' p.
Proof.
  intros H. rewrite save_packages_exec_db. now apply lookup_unknown_others.
Qed.

Lemma association_keeps_type_witness :
  exists x',
    get_reportpackage
      (db (exec (_save_packages text_semver 1 [sample_bash_affected] 1) world_with_bash))
      1 catalog_bash = Some x' /\
    rp_type x' = rp_type association_bash.
Proof.
  exact (association_keeps_type text_semver 1 1 1 [sample_bash_affected] catalog_bash
           association_bash world_with_bash eq_refl).
Defined.

Lemma aggregates_are_independent_witness :
  lookup_unknown
    (db (exec (_save_packages text_semver 1 [sample_foo_related; sample_bash] 3) world_with_foo))
    1 sample_foo = lookup_unknown (db world_with_foo) 1 sample_foo.
Proof.
  exact (aggregates_are_independent text_semver 1 1 3 sample_foo
           [sample_foo_related; sample_bash] world_with_foo eq_refl).
Defined.

(** ** The desktop aggregate *)

Section DesktopCount.

Context {semver : Type}.
Variable to_semver : string -> semver.

#[local] Abbreviation DB := (DB semver).
#[local] Abbreviation World := (World semver).

Lemma save_packages_db_osreleases (r c : Z) (pkgs : list package) (d : DB) :
  osreleases (save_packages_db to_semver r c pkgs d) = osreleases d.
Proof.
  revert d. induction pkgs as [|p pkgs IH]; intros d; [reflexivity|].
  rewrite save_packages_db_cons, IH.
  apply (save_package_db_catalog to_semver).
Qed.

(** The desktop table and the releases after [save_ureport] on a report
    with a desktop and a version. *)
Lemma save_ureport_desktops (r c : Z) (desktop version : string) (pkgs : list package)
    (flush : bool) (w : World) :
  let w1 := exec (save_ureport to_semver r
                    {| u_desktop := Some desktop; u_version := Some version |}
                    pkgs flush c) w in
  osreleases (db w1) = osreleases (db w) /\
  reportreleasedesktops (db w1) =
    match get_osrelease (db w) nice_name version with
    | None => reportreleasedesktops (db w)
    | Some db_release =>
        match get_report_release_desktop (db w) r db_release desktop with
        | None =>
            (reportreleasedesktops (db w) ++
             [{| rrd_report := r; rrd_release := db_release;
                 rrd_desktop := desktop; rrd_count := 0 + c |}])%list
        | Some _ =>
            update_first (reldesktop_matches r db_release desktop) (rrd_add_count c)
              (reportreleasedesktops (db w))
        end
    end.
Proof.
  cbv zeta. unfold save_ureport, exec.
  rewrite (bind_run _ _ _ _ _ (desktop_aggregation_run r c desktop version w)).
  match goal with
  | |- context [bind ?m ?k ?w0] =>
      destruct (reconcile_and_flush to_semver r c pkgs flush w0) as (ws & E)
  end.
  rewrite E. cbn [fst snd db].
  rewrite save_packages_db_osreleases, (save_packages_db_reldesktops to_semver).
  destruct (get_osrelease (db w) nice_name version) as [rel|]; cbn [db]; auto.
Qed.

Lemma desktop_count_step (r c : Z) (desktop version : string) (pkgs : list package)
    (flush : bool) (rel : OsRelease) (w : World) :
  get_osrelease (db w) nice_name version = Some rel ->
  let w1 := exec (save_ureport to_semver r
                    {| u_desktop := Some desktop; u_version := Some version |}
                    pkgs flush c) w in
  get_osrelease (db w1) nice_name version = Some rel /\
  desktop_count (db w1) r rel desktop = desktop_count (db w) r rel desktop + c.
Proof.
  intros Hrel. cbv zeta.
  destruct (save_ureport_desktops r c desktop version pkgs flush w) as [Ho Hd].
  split.
  - unfold get_osrelease in *. now rewrite Ho.
  - unfold desktop_count, get_report_release_desktop in *. rewrite Hd, Hrel.
    destruct (find (reldesktop_matches r rel desktop) (reportreleasedesktops (db w)))
      as [x|] eqn:E.
    + rewrite find_update_first by reflexivity. now rewrite E.
    + rewrite (find_app_new _ _ _ E); [reflexivity|].
      unfold reldesktop_matches. cbn.
      now rewrite !Z.eqb_refl, String.eqb_refl.
Qed.

End DesktopCount.

(** X7: the desktop aggregate counts like the package rows. For a report
    with a desktop and the version of a catalogued release, [n] calls of
    [save_ureport] with increment [c] add [c * n] to the count of the
    aggregate of (report, release, desktop), from 0 when there was no row,
    whatever the packages and the flush flag. *)
Theorem desktop_count_accumulates {semver : Type} (to_semver : string -> semver)
    (r c : Z) (desktop version : string) (pkgs : list package) (flush : bool)
    (rel : OsRelease) (n : nat) (w : World semver) :
  get_osrelease (db w) nice_name version = Some rel ->
  let u := {| u_desktop := Some desktop; u_version := Some version |} in
  desktop_count (db (Nat.iter n (exec (save_ureport to_semver r u pkgs flush c)) w))
    r rel desktop =
  desktop_count (db w) r rel desktop + c * Z.of_nat n.
Proof.
  intros Hrel. cbv zeta.
  assert (H : get_osrelease
                (db (Nat.iter n (exec (save_ureport to_semver r
                       {| u_desktop := Some desktop; u_version := Some version |}
                       pkgs flush c)) w)) nice_name version = Some rel /\
              desktop_count
                (db (Nat.iter n (exec (save_ureport to_semver r
                       {| u_desktop := Some desktop; u_version := Some version |}
                       pkgs flush c)) w)) r rel desktop =
              desktop_count (db w) r rel desktop + c * Z.of_nat n).
  { induction n as [|n [IH1 IH2]]; [split; [exact Hrel|simpl; lia]|].
    rewrite Nat.iter_succ.
    destruct (desktop_count_step to_semver r c desktop version pkgs flush rel _ IH1)
      as [H1 H2].
    split; [exact H1|]. rewrite H2, IH2. lia. }
  exact (proj2 H).
Qed.

Lemma desktop_count_accumulates_witness :
  desktop_count
    (db (Nat.iter 3 (exec (save_ureport text_semver 1
                             {| u_desktop := Some "gnome"; u_version := Some "38" |}
                             [sample_foo] true 2)) sample_world))
    1 fedora_38 "gnome" = desktop_count (db sample_world) 1 fedora_38 "gnome" + 2 * Z.of_nat 3.
Proof.
  exact (desktop_count_accumulates text_semver 1 2 "gnome" "38" [sample_foo] true
           fedora_38 3 sample_world eq_refl).
Defined.

(** * Further properties of the validation *)

Lemma packages_checker_ok (lens : column_lens) (l : list package) :
  packages_checker lens l = Ok tt <-> Forall (fun p => package_checker lens p = Ok tt) l.
Proof.
  induction l as [|p l IH]; cbn [packages_checker].
  - split; [constructor|reflexivity].
  - unfold and_then. destruct (package_checker lens p) as [[]|e] eqn:E.
    + rewrite IH. split; [intros H; now constructor|inversion 1; assumption].
    + split; [discriminate|]. inversion 1 as [|? ? Hp]. congruence.
Qed.

Lemma existsb_permutation {A : Type} (f : A -> bool) (l l' : list A) :
  Permutation l l' -> existsb f l = existsb f l'.
Proof.
  induction 1 as [|x l l' _ IH|x y l|l l' l'' _ IH1 _ IH2]; simpl.
  - reflexivity.
  - now rewrite IH.
  - destruct (f x), (f y); reflexivity.
  - congruence.
Qed.

(** The outcome of the policy check on a list that passes the structural
    check, from the roles in the list. *)
Lemma validate_packages_outcome {semver : Type} (self : Fedora) (lens : column_lens)
    (pkgs : list package) (w : World semver) :
  packages_checker lens pkgs = Ok tt ->
  outcome (validate_packages self lens pkgs) w =
  if existsb illegal_role pkgs then Raise (FafError roles_message)
  else if negb (existsb is_affected pkgs || allow_unpackaged self)
       then Raise (FafError "uReport must contain affected package")
       else Ok true.
Proof.
  intros H. unfold validate_packages, outcome, bind, lift. rewrite H.
  rewrite scan_roles_spec. cbn [orb].
  destruct (existsb illegal_role pkgs); [reflexivity|].
  destruct (negb (existsb is_affected pkgs || allow_unpackaged self)); reflexivity.
Qed.

(** X8: the verdict of [validate_packages] does not depend on the order of
    the packages: a list that passes the structural check and any
    rearrangement of it are both accepted, or both rejected with the same
    error. *)
Theorem validate_packages_order {semver : Type} (self : Fedora) (lens : column_lens)
    (pkgs pkgs' : list package) (w : World semver) :
  Permutation pkgs pkgs' ->
  packages_checker lens pkgs = Ok tt ->
  outcome (validate_packages self lens pkgs') w =
  outcome (validate_packages self lens pkgs) w.
Proof.
  intros Hperm Hcheck.
  assert (Hcheck' : packages_checker lens pkgs' = Ok tt).
  { apply packages_checker_ok. apply packages_checker_ok in Hcheck.
    exact (Permutation_Forall Hperm Hcheck). }
  rewrite !validate_packages_outcome by assumption.
  now rewrite (existsb_permutation illegal_role _ _ Hperm),
    (existsb_permutation is_affected _ _ Hperm).
Qed.

Lemma validate_packages_order_witness :
  outcome (validate_packages {| allow_unpackaged := false |} sample_lens
             [sample_foo; sample_bash]) sample_world =
  outcome (validate_packages {| allow_unpackaged := false |} sample_lens
             [sample_bash; sample_foo]) sample_world.
Proof.
  apply validate_packages_order; [apply perm_swap|reflexivity].
Defined.

(** X9: what a successful validation promises the reconciler. Every role
    tag of an accepted list is one of the three allowed, so that RELATED is
    the classification of the records tagged "related" and of the untagged
    ones only; and unless unpackaged reports are allowed, some record of the
    list is classified CRASHED. *)
Theorem validated_roles {semver : Type} (self : Fedora) (lens : column_lens)
    (pkgs : list package) (w : World semver) :
  outcome (validate_packages self lens pkgs) w = Ok true ->
  (forall p role, In p pkgs -> p_package_role p = Some role -> In role pkg_roles) /\
  (forall p, In p pkgs -> role_of p = "RELATED" ->
     p_package_role p = None \/ p_package_role p = Some "related") /\
  (allow_unpackaged self = false -> exists p, In p pkgs /\ role_of p = "CRASHED").
Proof.
  intros H.
  assert (Hcheck : packages_checker lens pkgs = Ok tt).
  { unfold validate_packages, outcome, bind, lift in H.
    destruct (packages_checker lens pkgs) as [[]|e]; [reflexivity|discriminate]. }
  rewrite (validate_packages_outcome self lens pkgs w Hcheck) in H.
  destruct (existsb illegal_role pkgs) eqn:Bad; [discriminate|].
  assert (Hroles : forall p role, In p pkgs -> p_package_role p = Some role ->
                                  In role pkg_roles).
  { intros p role Hp E.
    destruct (existsb (String.eqb role) pkg_roles) eqn:B; [now apply existsb_eqb_In|].
    assert (existsb illegal_role pkgs = true) as T; [|congruence].
    apply existsb_exists. exists p. split; [exact Hp|].
    unfold illegal_role. now rewrite E, B. }
  split; [exact Hroles|split].
  - intros p Hp Hrel. destruct (p_package_role p) as [role|] eqn:E; [|auto].
    right. specialize (Hroles p role Hp E). unfold role_of in Hrel. rewrite E in Hrel.
    destruct Hroles as [<-|[<-|[<-|[]]]]; [discriminate|reflexivity|discriminate].
  - intros Hallow. rewrite Hallow, orb_false_r in H.
    destruct (existsb is_affected pkgs) eqn:Aff; [|discriminate].
    apply existsb_exists in Aff as (p & Hp & Ha). exists p. split; [exact Hp|].
    unfold is_affected in Ha. unfold role_of.
    destruct (p_package_role p) as [role|]; [|discriminate]. now rewrite Ha.
Qed.

Lemma validated_roles_witness :
  exists p, In p [sample_bash; sample_foo] /\ role_of p = "CRASHED".
Proof.
  exact (proj2 (proj2 (validated_roles {| allow_unpackaged := false |} sample_lens
                         [sample_bash; sample_foo] sample_world eq_refl)) eq_refl).
Defined.

(** * The package name match *)

Lemma check_pkgname_match_existsb (pkgs : list package) (parser_match : string -> bool) :
  check_pkgname_match pkgs parser_match =
  existsb (fun p => affected_any_case p && parser_match (nvra_of p)) pkgs.
Proof.
  induction pkgs as [|p pkgs IH]; [reflexivity|].
  cbn [check_pkgname_match existsb]. unfold affected_any_case at 1.
  destruct (p_package_role p) as [role|]; [|exact IH].
  destruct (PyStr.lower role =? "affected")%string; cbn [negb andb orb]; [|exact IH].
  destruct (parser_match (nvra_of p)); [reflexivity|exact IH].
Qed.

(** X10: [check_pkgname_match] returns [True] exactly when the name,
    version, release and architecture of some record whose role tag is
    "affected", in any letter case, match the parser; records without a
    role tag or with another one are never shown to the parser, and the
    epoch plays no part. *)
Theorem check_pkgname_match_spec (pkgs : list package) (parser_match : string -> bool) :
  (check_pkgname_match pkgs parser_match = true <->
   exists p role,
     In p pkgs /\ p_package_role p = Some role /\ PyStr.lower role = "affected" /\
     parser_match (p_name p ++ "-" ++ p_version p ++ "-" ++ p_release p ++ "." ++
                   p_architecture p) = true) /\
  (forallb (fun p => negb (affected_any_case p)) pkgs = true ->
   forall other : string -> bool,
     check_pkgname_match pkgs other = false).
Proof.
  split.
  - rewrite check_pkgname_match_existsb, existsb_exists. split.
    + intros (p & Hp & H). apply andb_true_iff in H as [Ha Hm].
      unfold affected_any_case in Ha.
      destruct (p_package_role p) as [role|] eqn:E; [|discriminate].
      apply String.eqb_eq in Ha. exists p, role. auto.
    + intros (p & role & Hp & E & Ha & Hm). exists p. split; [exact Hp|].
      unfold affected_any_case. rewrite E, Ha. exact Hm.
  - intros H other. rewrite check_pkgname_match_existsb.
    induction pkgs as [|p pkgs IH]; [reflexivity|].
    cbn [forallb existsb] in *. apply andb_true_iff in H as [Hp H].
    apply negb_true_iff in Hp. rewrite Hp. cbn [andb orb]. now apply IH.
Qed.

Lemma check_pkgname_match_spec_witness :
  check_pkgname_match [sample_bash; sample_foo_related] (fun _ => true) = false.
Proof.
  exact (proj2 (check_pkgname_match_spec [sample_bash; sample_foo_related] (fun _ => true))
           eq_refl (fun _ => true)).
Defined.

Lemma allowed_role_affected (role : string) :
  In role pkg_roles -> (PyStr.lower role =? "affected")%string = (role =? "affected")%string.
Proof. intros [<-|[<-|[<-|[]]]]; reflexivity. Qed.

(** X11: on a list that [validate_packages] accepts, the records that
    [check_pkgname_match] shows to the parser are those that the reconciler
    classifies CRASHED: the match succeeds exactly when the parser matches
    the name-version-release.architecture of a CRASHED record. *)
Theorem check_pkgname_match_validated {semver : Type} (self : Fedora) (lens : column_lens)
    (pkgs : list package) (parser_match : string -> bool) (w : World semver) :
  outcome (validate_packages self lens pkgs) w = Ok true ->
  (check_pkgname_match pkgs parser_match = true <->
   exists p, In p pkgs /\ role_of p = "CRASHED" /\ parser_match (nvra_of p) = true).
Proof.
  intros Hvalid.
  assert (Hroles : forall p role, In p pkgs -> p_package_role p = Some role ->
                                  In role pkg_roles).
  { assert (Hcheck : packages_checker lens pkgs = Ok tt).
    { unfold validate_packages, outcome, bind, lift in Hvalid.
      destruct (packages_checker lens pkgs) as [[]|e]; [reflexivity|discriminate]. }
    rewrite (validate_packages_outcome self lens pkgs w Hcheck) in Hvalid.
    destruct (existsb illegal_role pkgs) eqn:Bad; [discriminate|].
    intros p role Hp E.
    destruct (existsb (String.eqb role) pkg_roles) eqn:B; [now apply existsb_eqb_In|].
    assert (existsb illegal_role pkgs = true) as T; [|congruence].
    apply existsb_exists. exists p. split; [exact Hp|].
    unfold illegal_role. now rewrite E, B. }
  rewrite check_pkgname_match_existsb, existsb_exists.
  split.
  - intros (p & Hp & H). apply andb_true_iff in H as [Ha Hm].
    exists p. split; [exact Hp|]. split; [|exact Hm].
    unfold affected_any_case in Ha. unfold role_of.
    destruct (p_package_role p) as [role|] eqn:E; [|discriminate].
    rewrite (allowed_role_affected role (Hroles p role Hp E)) in Ha. now rewrite Ha.
  - intros (p & Hp & Hc & Hm). exists p. split; [exact Hp|].
    rewrite Hm, andb_true_r. unfold affected_any_case. unfold role_of in Hc.
    destruct (p_package_role p) as [role|] eqn:E; [|discriminate].
    rewrite (allowed_role_affected role (Hroles p role Hp E)).
    destruct (role =? "affected")%string; [reflexivity|].
    destruct (role =? "selinux_policy")%string; discriminate.
Qed.

Lemma check_pkgname_match_validated_witness :
  check_pkgname_match [sample_bash; sample_foo] (fun s => (s =? "foo-1.0-1.fc20.x86_64")%string)
    = true <->
  exists p, In p [sample_bash; sample_foo] /\ role_of p = "CRASHED" /\
            (nvra_of p =? "foo-1.0-1.fc20.x86_64")%string = true.
Proof.
  exact (check_pkgname_match_validated {| allow_unpackaged := false |} sample_lens
           [sample_bash; sample_foo] (fun s => (s =? "foo-1.0-1.fc20.x86_64")%string)
           sample_world eq_refl).
Defined.

(** * Dicts *)

Section DictFacts.

Context {V : Type}.

Lemma dict_get_set (k k' : string) (v : V) (d : list (string * V)) :
  dict_get k (dict_set k' v d) =
  if (k' =? k)%string then Some v else dict_get k d.
Proof.
  induction d as [|[k0 v0] d IH]; cbn [dict_set dict_get]; [reflexivity|].
  destruct (k0 =? k')%string eqn:E; cbn [dict_get].
  - apply String.eqb_eq in E. subst k0. destruct (k' =? k)%string; reflexivity.
  - rewrite IH. destruct (k0 =? k)%string eqn:E0; [|reflexivity].
    apply String.eqb_eq in E0. subst k0. now rewrite String.eqb_sym, E.
Qed.

Lemma dict_keys_set (k : string) (v : V) (d : list (string * V)) :
  dict_get k d = None -> dict_keys (dict_set k v d) = (dict_keys d ++ [k])%list.
Proof.
  induction d as [|[k0 v0] d IH]; cbn [dict_set dict_get dict_keys map app]; [reflexivity|].
  destruct (k0 =? k)%string; [discriminate|].
  intros H. cbn [map fst]. f_equal. exact (IH H).
Qed.

Lemma dict_keys_set_present (k : string) (v v0 : V) (d : list (string * V)) :
  dict_get k d = Some v0 -> dict_keys (dict_set k v d) = dict_keys d.
Proof.
  induction d as [|[k1 v1] d IH]; cbn [dict_set dict_get dict_keys map]; [discriminate|].
  destruct (k1 =? k)%string; [reflexivity|].
  intros H. cbn [map fst]. f_equal. exact (IH H).
Qed.

Lemma dict_get_In (k : string) (d : list (string * V)) :
  In k (dict_keys d) <-> dict_get k d <> None.
Proof.
  induction d as [|[k0 v0] d IH]; cbn [dict_keys map In dict_get fst].
  - split; [contradiction|congruence].
  - destruct (k0 =? k)%string eqn:E.
    + apply String.eqb_eq in E. split; [discriminate|auto].
    + apply String.eqb_neq in E. fold (dict_keys d). rewrite <- IH. tauto.
Qed.

Lemma dict_set_NoDup (k : string) (v : V) (d : list (string * V)) :
  NoDup (dict_keys d) -> NoDup (dict_keys (dict_set k v d)).
Proof.
  intros H. destruct (dict_get k d) as [v0|] eqn:E.
  - now rewrite (dict_keys_set_present k v v0 d E).
  - rewrite (dict_keys_set k v d E).
    apply NoDup_app; [exact H|repeat constructor; intros []|].
    intros x Hx [<-|[]]. apply dict_get_In in Hx. contradiction.
Qed.

End DictFacts.

(** * The release directory *)

Section ReleasesFacts.

Variable fnmatchcase : string -> string -> bool.
Variable ignored_releases : list string.

#[local] Abbreviation entry := (release_entry fnmatchcase ignored_releases).
#[local] Abbreviation loop := (releases_loop fnmatchcase ignored_releases).

Lemma is_ignored_iff (l : list string) (ver : string) :
  _is_ignored fnmatchcase l ver = true <->
  exists pattern, In pattern l /\ fnmatchcase ver pattern = true.
Proof.
  induction l as [|p l IH]; cbn [_is_ignored].
  - split; [discriminate|intros (? & [] & _)].
  - destruct (fnmatchcase ver p) eqn:E.
    + split; [intros _; exists p; split; [now left|exact E]|reflexivity].
    + rewrite IH. split.
      * intros (q & Hq & Hm). exists q. split; [now right|exact Hm].
      * intros (q & [<-|Hq] & Hm); [congruence|]. exists q. auto.
Qed.

(** What an item of the result says of the release it comes from. *)
Lemma release_entry_some (release : pdc_release) (ver : string) (info : release_info) :
  entry release = Ok (Some (ver, info)) <->
  exists version active,
    pr_version release = Some version /\ ver = PyStr.lower version /\
    release_passes fnmatchcase ignored_releases version (pr_release_type release) = true /\
    pr_active release = Some active /\
    info = {| status := if active then "ACTIVE" else "EOL" |}.
Proof.
  split.
  - unfold release_entry, release_passes. cbv zeta.
    destruct (pr_version release) as [version|]; [|discriminate].
    destruct (PyStr.isdecimal (PyStr.lower version)) eqn:Hd;
      destruct (PyStr.lower version =? "rawhide")%string eqn:Hr;
      cbn [negb andb orb]; try discriminate;
      (destruct (pr_release_type release) as [t|]; cbn [negb andb orb]; [|discriminate]);
      (destruct (t =? "ga")%string eqn:Ht; cbn [negb andb orb]; [|discriminate]);
      (destruct (_is_ignored fnmatchcase ignored_releases (PyStr.lower version)) eqn:Hi;
       cbn [negb andb orb]; [discriminate|]);
      (destruct (pr_active release) as [active|]; [|discriminate]);
      intros H; injection H as <- <-; exists version, active; repeat split;
      rewrite ?Hd, ?Hr, ?Hi; reflexivity.
  - intros (version & active & Hv & -> & Hp & Ha & ->).
    unfold release_entry. rewrite Hv, Ha. cbv zeta.
    unfold release_passes in Hp. cbv zeta in Hp.
    apply andb_true_iff in Hp as [Hp Hi]. apply andb_true_iff in Hp as [Hd Ht].
    apply negb_true_iff in Hi. rewrite Hi.
    destruct (pr_release_type release) as [t|]; [|discriminate]. rewrite Ht.
    destruct (PyStr.isdecimal (PyStr.lower version));
      destruct (PyStr.lower version =? "rawhide")%string;
      try discriminate; reflexivity.
Qed.

(** The loop body through the filters. *)
Lemma release_entry_passes (release : pdc_release) (version : string) :
  pr_version release = Some version ->
  entry release =
  if release_passes fnmatchcase ignored_releases version (pr_release_type release)
  then match pr_active release with
       | None => Raise (KeyError "active")
       | Some active =>
           Ok (Some (PyStr.lower version,
                     {| status := if active then "ACTIVE" else "EOL" |}))
       end
  else Ok None.
Proof.
  intros Hv. unfold release_entry, release_passes. rewrite Hv. cbv zeta.
  destruct (PyStr.isdecimal (PyStr.lower version));
    destruct (PyStr.lower version =? "rawhide")%string;
    destruct (pr_release_type release) as [t|]; try destruct (t =? "ga")%string;
    destruct (_is_ignored fnmatchcase ignored_releases (PyStr.lower version));
    reflexivity.
Qed.

Lemma releases_loop_app (l1 l2 : list pdc_release) (acc : list (string * release_info)) :
  loop (l1 ++ l2) acc =
  match loop l1 acc with
  | Ok acc' => loop l2 acc'
  | Raise e => Raise e
  end.
Proof.
  revert acc. induction l1 as [|r l1 IH]; intros acc; [reflexivity|].
  cbn [app releases_loop].
  destruct (entry r) as [[[ver info]|]|e]; auto.
Qed.

(** Every item of the result was in the dict before the loop, or comes from
    a release of the list. *)
Lemma releases_loop_sound (rels : list pdc_release) :
  forall acc res ver info,
    loop rels acc = Ok res -> dict_get ver res = Some info ->
    dict_get ver acc = Some info \/
    exists release, In release rels /\ entry release = Ok (Some (ver, info)).
Proof.
  induction rels as [|r rels IH]; intros acc res ver info Hloop Hget.
  - injection Hloop as <-. auto.
  - cbn [releases_loop] in Hloop.
    destruct (entry r) as [[[k i]|]|e] eqn:E; [| |discriminate].
    + destruct (IH _ _ _ _ Hloop Hget) as [H|(rel & Hin & Hrel)].
      * rewrite dict_get_set in H. destruct (k =? ver)%string eqn:K.
        -- apply String.eqb_eq in K. subst k. injection H as <-.
           right. exists r. split; [now left|exact E].
        -- auto.
      * right. exists rel. split; [now right|exact Hrel].
    + destruct (IH _ _ _ _ Hloop Hget) as [H|(rel & Hin & Hrel)]; [auto|].
      right. exists rel. split; [now right|exact Hrel].
Qed.

(** An item stays as it is through releases that give no item for its
    key. *)
Lemma releases_loop_keeps (rels : list pdc_release) :
  forall acc res ver info,
    loop rels acc = Ok res -> dict_get ver acc = Some info ->
    (forall release info', In release rels -> entry release <> Ok (Some (ver, info'))) ->
    dict_get ver res = Some info.
Proof.
  induction rels as [|r rels IH]; intros acc res ver info Hloop Hget Hno.
  - injection Hloop as <-. exact Hget.
  - cbn [releases_loop] in Hloop.
    destruct (entry r) as [[[k i]|]|e] eqn:E; [| |discriminate].
    + apply (IH _ _ _ _ Hloop).
      * rewrite dict_get_set. destruct (k =? ver)%string eqn:K; [|exact Hget].
        apply String.eqb_eq in K. subst k.
        exfalso. apply (Hno r i); [now left|exact E].
      * intros rel i' Hin. apply Hno. now right.
    + apply (IH _ _ _ _ Hloop Hget). intros rel i' Hin. apply Hno. now right.
Qed.

Lemma releases_loop_NoDup (rels : list pdc_release) :
  forall acc res,
    loop rels acc = Ok res -> NoDup (dict_keys acc) -> NoDup (dict_keys res).
Proof.
  induction rels as [|r rels IH]; intros acc res Hloop Hnd.
  - injection Hloop as <-. exact Hnd.
  - cbn [releases_loop] in Hloop.
    destruct (entry r) as [[[k i]|]|e]; [| |discriminate].
    + apply (IH _ _ Hloop). now apply dict_set_NoDup.
    + now apply (IH _ _ Hloop).
Qed.

Lemma releases_loop_ok (rels : list pdc_release) :
  forall acc,
    (exists res, loop rels acc = Ok res) <->
    (forall release, In release rels -> exists item, entry release = Ok item).
Proof.
  induction rels as [|r rels IH]; intros acc.
  - split; [intros _ ? []|intros _; now exists acc].
  - cbn [releases_loop]. split.
    + intros (res & H) rel [<-|Hin].
      * destruct (entry r) as [item|e]; [now exists item|discriminate].
      * destruct (entry r) as [[[k i]|]|e]; [| |discriminate];
          eapply (proj1 (IH _)); eauto.
    + intros H. destruct (H r (or_introl eq_refl)) as (item & ->).
      destruct item as [[k i]|]; apply IH; intros rel Hin; apply H; now right.
Qed.

End ReleasesFacts.

(** X12: [_is_ignored] is true exactly when some pattern of the list
    matches the version, so it is false for the empty list, and two lists
    with the same patterns, in any order and with any repetition, ignore the
    same versions. *)
Theorem is_ignored_patterns (fnmatchcase : string -> string -> bool)
    (l l' : list string) (ver : string) :
  (_is_ignored fnmatchcase l ver = true <->
   exists pattern, In pattern l /\ fnmatchcase ver pattern = true) /\
  ((forall pattern, In pattern l <-> In pattern l') ->
   _is_ignored fnmatchcase l ver = _is_ignored fnmatchcase l' ver).
Proof.
  split; [apply is_ignored_iff|].
  intros H.
  destruct (_is_ignored fnmatchcase l ver) eqn:E, (_is_ignored fnmatchcase l' ver) eqn:E';
    try reflexivity; exfalso.
  - apply is_ignored_iff in E as (p & Hp & Hm).
    assert (_is_ignored fnmatchcase l' ver = true) as T; [|congruence].
    apply is_ignored_iff. exists p. split; [now apply H|exact Hm].
  - apply is_ignored_iff in E' as (p & Hp & Hm).
    assert (_is_ignored fnmatchcase l ver = true) as T; [|congruence].
    apply is_ignored_iff. exists p. split; [now apply H|exact Hm].
Qed.

Lemma is_ignored_patterns_witness :
  _is_ignored String.eqb ["rawhide"; "20"] "20" = _is_ignored String.eqb ["20"; "rawhide"; "20"] "20".
Proof.
  apply (is_ignored_patterns String.eqb ["rawhide"; "20"] ["20"; "rawhide"; "20"] "20").
  intros pattern. simpl. tauto.
Defined.

Lemma passing_version_has_branch (fnmatchcase : string -> string -> bool)
    (ignored_releases : list string) (version : string) (release_type : option string) :
  release_passes fnmatchcase ignored_releases version release_type = true ->
  (String.length (PyStr.lower version) <= PyStr.max_str_digits)%nat ->
  exists branch, _release_to_branch (RelStr (PyStr.lower version)) = Ok branch.
Proof.
  unfold release_passes. cbv zeta. intros H Hlen.
  apply andb_true_iff in H as [H _]. apply andb_true_iff in H as [H _].
  destruct (PyStr.isdecimal (PyStr.lower version)) eqn:Hd.
  - destruct (release_to_branch_table (PyStr.lower version)) as (_ & Hdec & _).
    specialize (Hdec Hd Hlen). cbv zeta in Hdec. eexists. exact Hdec.
  - cbn [orb] in H. apply String.eqb_eq in H. rewrite H. now exists "rawhide".
Qed.

(** X13: every item of the dict that [get_releases] returns comes from a
    release that the directory listed: its key is the version of that
    release in lower case, decimal or "rawhide"; the release is a GA
    release; no ignore pattern matches the key; its status is ACTIVE or EOL
    as the release is active or not. Every key within the interpreter's
    limit of digits is a release that [_release_to_branch] maps to a
    branch. *)
Theorem get_releases_items (fnmatchcase : string -> string -> bool)
    (urlopen : string -> list pdc_release) (pdc_url : string)
    (ignored_releases : list string) (res : list (string * release_info))
    (ver : string) (info : release_info) :
  get_releases fnmatchcase urlopen pdc_url ignored_releases = Ok res ->
  dict_get ver res = Some info ->
  exists release version active,
    In release (urlopen (pdc_url ++ "releases/?page_size=-1&short=fedora")) /\
    pr_version release = Some version /\ ver = PyStr.lower version /\
    (PyStr.isdecimal ver = true \/ ver = "rawhide") /\
    pr_release_type release = Some "ga" /\
    (forall pattern, In pattern ignored_releases -> fnmatchcase ver pattern = false) /\
    pr_active release = Some active /\
    status info = (if active then "ACTIVE" else "EOL") /\
    ((String.length ver <= PyStr.max_str_digits)%nat ->
     exists branch, _release_to_branch (RelStr ver) = Ok branch).
Proof.
  unfold get_releases. cbv zeta. intros Hloop Hget.
  destruct (releases_loop_sound fnmatchcase ignored_releases _ _ _ _ _ Hloop Hget)
    as [H|(release & Hin & Hentry)]; [discriminate|].
  apply release_entry_some in Hentry as (version & active & Hv & -> & Hp & Ha & ->).
  exists release, version, active.
  pose proof (passing_version_has_branch _ _ _ _ Hp) as Hbranch.
  unfold release_passes in Hp. cbv zeta in Hp.
  apply andb_true_iff in Hp as [Hp Hi]. apply andb_true_iff in Hp as [Hd Ht].
  repeat split; auto.
  - apply orb_true_iff in Hd as [Hd|Hd]; [now left|right; now apply String.eqb_eq].
  - destruct (pr_release_type release) as [t|]; [|discriminate].
    apply String.eqb_eq in Ht. now subst.
  - intros pattern Hpat. apply negb_true_iff in Hi.
    destruct (fnmatchcase (PyStr.lower version) pattern) eqn:E; [|reflexivity].
    assert (_is_ignored fnmatchcase ignored_releases (PyStr.lower version) = true) as T;
      [|congruence].
    apply is_ignored_iff. now exists pattern.
Qed.

(** X14: the dict that [get_releases] returns has one item for a key, and
    for a version that the directory lists more than once, the last listing
    that passes the filters decides the status. *)
Theorem get_releases_last_wins (fnmatchcase : string -> string -> bool)
    (urlopen : string -> list pdc_release) (pdc_url : string)
    (ignored_releases : list string) (res : list (string * release_info))
    (l1 l2 : list pdc_release) (release : pdc_release) (version : string) (active : bool) :
  get_releases fnmatchcase urlopen pdc_url ignored_releases = Ok res ->
  urlopen (pdc_url ++ "releases/?page_size=-1&short=fedora") = (l1 ++ release :: l2)%list ->
  pr_version release = Some version ->
  release_passes fnmatchcase ignored_releases version (pr_release_type release) = true ->
  pr_active release = Some active ->
  (forall later version',
     In later l2 -> pr_version later = Some version' ->
     PyStr.lower version' = PyStr.lower version ->
     release_passes fnmatchcase ignored_releases version' (pr_release_type later) = false) ->
  NoDup (dict_keys res) /\
  dict_get (PyStr.lower version) res =
    Some {| status := if active then "ACTIVE" else "EOL" |}.
Proof.
  unfold get_releases. cbv zeta. intros Hloop Hurl Hv Hp Ha Hlater.
  split.
  - apply (releases_loop_NoDup fnmatchcase ignored_releases _ _ _ Hloop). constructor.
  - change (pdc_url ++ "releases/?page_size=-1&short=" ++ name)
      with (pdc_url ++ "releases/?page_size=-1&short=fedora") in Hloop.
    rewrite Hurl, releases_loop_app in Hloop.
    destruct (releases_loop fnmatchcase ignored_releases l1 []) as [acc|e]; [|discriminate].
    cbn [releases_loop] in Hloop.
    assert (Hentry : release_entry fnmatchcase ignored_releases release =
                     Ok (Some (PyStr.lower version,
                               {| status := if active then "ACTIVE" else "EOL" |}))).
    { apply release_entry_some. exists version, active. auto. }
    rewrite Hentry in Hloop.
    apply (releases_loop_keeps fnmatchcase ignored_releases _ _ _ _ _ Hloop).
    + rewrite dict_get_set, String.eqb_refl. reflexivity.
    + intros later info' Hin Hsome.
      apply release_entry_some in Hsome as (version' & active' & Hv' & Hl & Hp' & _).
      rewrite (Hlater later version' Hin Hv' (eq_sym Hl)) in Hp'. discriminate.
Qed.

(** X15: [get_releases] fails, with [KeyError], exactly when the directory
    lists a release without a version, or a release that passes the filters
    without the key "active"; a release that is filtered out needs no such
    key. *)
Theorem get_releases_key_errors (fnmatchcase : string -> string -> bool)
    (urlopen : string -> list pdc_release) (pdc_url : string)
    (ignored_releases : list string) :
  (exists res, get_releases fnmatchcase urlopen pdc_url ignored_releases = Ok res) <->
  (forall release,
     In release (urlopen (pdc_url ++ "releases/?page_size=-1&short=fedora")) ->
     exists version,
       pr_version release = Some version /\
       (release_passes fnmatchcase ignored_releases version (pr_release_type release) = true ->
        pr_active release <> None)).
Proof.
  unfold get_releases. cbv zeta.
  change (pdc_url ++ "releases/?page_size=-1&short=" ++ name)
    with (pdc_url ++ "releases/?page_size=-1&short=fedora").
  rewrite releases_loop_ok.
  assert (Hentry : forall release,
             (exists item, release_entry fnmatchcase ignored_releases release = Ok item) <->
             exists version,
               pr_version release = Some version /\
               (release_passes fnmatchcase ignored_releases version
                  (pr_release_type release) = true -> pr_active release <> None)).
  { intros release. destruct (pr_version release) as [version|] eqn:Hv.
    2: { unfold release_entry. rewrite Hv.
         split; [intros (? & H); discriminate|intros (? & H & _); discriminate]. }
    rewrite (release_entry_passes fnmatchcase ignored_releases release version Hv).
    destruct (release_passes fnmatchcase ignored_releases version (pr_release_type release))
      eqn:Hp.
    - destruct (pr_active release) as [active|].
      + split; [intros _; exists version; split; [reflexivity|congruence]
               |intros _; eexists; reflexivity].
      + split; [intros (? & H); discriminate|].
        intros (v & E & H). injection E as <-. now destruct (H Hp).
    - split; [intros _; exists version; split; [reflexivity|congruence]
             |intros _; eexists; reflexivity]. }
  split; intros H release Hin; apply Hentry, H, Hin.
Qed.

Example get_releases_sample :
  get_releases exact_match sample_directory "https://pdc/" ["37"] = Ok sample_listing.
Proof. reflexivity. Qed.

Lemma get_releases_items_witness :
  exists branch, _release_to_branch (RelStr "rawhide") = Ok branch.
Proof.
  destruct (get_releases_items exact_match sample_directory "https://pdc/" ["37"]
              sample_listing "rawhide" {| status := "ACTIVE" |} eq_refl eq_refl)
    as (release & version & active & _ & _ & _ & _ & _ & _ & _ & _ & H).
  apply H. unfold PyStr.max_str_digits. simpl. lia.
Defined.

Lemma get_releases_last_wins_witness :
  NoDup (dict_keys sample_listing) /\
  dict_get (PyStr.lower "38") sample_listing = Some {| status := "EOL" |}.
Proof.
  apply (get_releases_last_wins exact_match sample_directory "https://pdc/" ["37"]
           sample_listing
           (firstn 4 sample_releases) []
           {| pr_version := Some "38"; pr_release_type := Some "ga";
              pr_active := Some false |}
           "38" false); try reflexivity.
  intros later version' [].
Defined.

Lemma get_releases_key_errors_witness :
  exists res, get_releases exact_match sample_directory "https://pdc/" ["37"] = Ok res.
Proof.
  apply (get_releases_key_errors exact_match sample_directory "https://pdc/" ["37"]).
  intros release Hin.
  repeat (destruct Hin as [<-|Hin];
          [eexists; split; [reflexivity|cbn; try discriminate; intros; discriminate]|]).
  destruct Hin.
Defined.

(** * The component directory *)

(** X16: [get_components] can be asked for every release that
    [get_releases] returns, the key being within the interpreter's limit of
    digits: the key has a branch, and the call opens the one address of that
    branch and returns what the listing there gives; the error of an invalid
    release cannot occur. *)
Theorem get_components_of_listed_release (fnmatchcase : string -> string -> bool)
    (releases : string -> list pdc_release) (urlopen : string -> list component_item)
    (pdc_url : string) (ignored_releases : list string)
    (res : list (string * release_info)) (ver : string) :
  get_releases fnmatchcase releases pdc_url ignored_releases = Ok res ->
  In ver (dict_keys res) ->
  (String.length ver <= PyStr.max_str_digits)%nat ->
  exists branch,
    _release_to_branch (RelStr ver) = Ok branch /\
    get_components urlopen pdc_url (RelStr ver) =
    (map_result component_name
       (urlopen (pdc_url ++ "component-branches/?name=" ++ branch ++
                 "&page_size=-1&fields=global_component&type=rpm")),
     [pdc_url ++ "component-branches/?name=" ++ branch ++
      "&page_size=-1&fields=global_component&type=rpm"]).
Proof.
  unfold get_releases. cbv zeta. intros Hloop Hin Hlen.
  apply dict_get_In in Hin.
  destruct (dict_get ver res) as [info|] eqn:Hget; [clear Hin|contradiction].
  destruct (releases_loop_sound fnmatchcase ignored_releases _ _ _ _ _ Hloop Hget)
    as [H|(release & _ & Hentry)]; [discriminate|].
  apply release_entry_some in Hentry as (version & active & _ & -> & Hp & _).
  destruct (passing_version_has_branch _ _ _ _ Hp Hlen) as (branch & Hb).
  exists branch. split; [exact Hb|].
  unfold get_components. now rewrite Hb.
Qed.

Lemma get_components_of_listed_release_witness :
  exists branch,
    _release_to_branch (RelStr "38") = Ok branch /\
    get_components sample_components "https://pdc/" (RelStr "38") =
    (map_result component_name
       (sample_components ("https://pdc/" ++ "component-branches/?name=" ++ branch ++
                           "&page_size=-1&fields=global_component&type=rpm")),
     ["https://pdc/" ++ "component-branches/?name=" ++ branch ++
      "&page_size=-1&fields=global_component&type=rpm"]).
Proof.
  apply (get_components_of_listed_release exact_match sample_directory sample_components
           "https://pdc/" ["37"] sample_listing "38" eq_refl).
  - simpl. auto.
  - unfold PyStr.max_str_digits. simpl. lia.
Defined.

Lemma map_result_names (items : list component_item) :
  forall names,
    map_result component_name items = Ok names ->
    map global_component items = map Some names.
Proof.
  induction items as [|item items IH]; simpl; intros names H.
  - now injection H as <-.
  - unfold component_name at 1 in H.
    destruct (global_component item) as [c|] eqn:E; [|discriminate].
    destruct (map_result component_name items) as [cs|e]; [|discriminate].
    injection H as <-. simpl. now rewrite (IH cs eq_refl).
Qed.

(** X17: [get_components] opens no address for a release that is neither
    "rawhide" nor made of digits: it raises the error of
    [_release_to_branch]. When it returns, it returns the component of
    every listed item, in the order of the listing. *)
Theorem get_components_result (urlopen : string -> list component_item)
    (pdc_url : string) (s : string) :
  ((PyStr.lower s =? "rawhide")%string = false -> PyStr.isdigit s = false ->
   get_components urlopen pdc_url (RelStr s) =
   (Raise (FafError (s ++ " is not a valid Fedora version")), [])) /\
  (forall names,
     fst (get_components urlopen pdc_url (RelStr s)) = Ok names ->
     exists url,
       snd (get_components urlopen pdc_url (RelStr s)) = [url] /\
       map global_component (urlopen url) = map Some names).
Proof.
  split.
  - intros Hr Hd. unfold get_components.
    destruct (release_to_branch_table s) as (_ & _ & H). now rewrite (H Hr Hd).
  - intros names. unfold get_components.
    destruct (_release_to_branch (RelStr s)) as [branch|e]; [|discriminate].
    cbn [fst snd]. intros H. eexists. split; [reflexivity|].
    now apply map_result_names.
Qed.

Lemma get_components_result_witness :
  get_components sample_components "https://pdc/" (RelStr "f38") =
    (Raise (FafError "f38 is not a valid Fedora version"), []) /\
  exists url,
    snd (get_components sample_components "https://pdc/" (RelStr "38")) = [url] /\
    map global_component (sample_components url) = map Some ["bash"; "glibc"].
Proof.
  split.
  - exact (proj1 (get_components_result sample_components "https://pdc/" "f38")
             eq_refl eq_refl).
  - exact (proj2 (get_components_result sample_components "https://pdc/" "38")
             ["bash"; "glibc"] eq_refl).
Defined.

(** * Component access *)

Lemma add_owners_get (users : list string) (u : string) :
  forall res,
    dict_get u (fold_left add_owner users res) =
    if existsb (String.eqb u) users then Some owner_acl else dict_get u res.
Proof.
  induction users as [|x users IH]; intros res; [reflexivity|].
  cbn [fold_left existsb]. rewrite IH. unfold add_owner.
  rewrite dict_get_set, (String.eqb_sym u x).
  destruct (existsb (String.eqb u) users); [now rewrite orb_true_r|].
  rewrite orb_false_r. reflexivity.
Qed.

Lemma add_groups_get (groups : list (string * list string)) (u : string) :
  forall res,
    dict_get u (fold_left add_group groups res) =
    if is_owner groups u then Some owner_acl else dict_get u res.
Proof.
  induction groups as [|g groups IH]; intros res; [reflexivity|].
  cbn [fold_left]. rewrite IH. unfold add_group. rewrite add_owners_get.
  unfold is_owner. cbn [existsb]. fold (is_owner groups u).
  destruct (is_owner groups u); [now rewrite orb_true_r|].
  rewrite orb_false_r. reflexivity.
Qed.

Lemma add_watcher_get (res : list (string * acl)) (x u : string) :
  dict_get u (add_watcher res x) =
  if (x =? u)%string then Some {| commit := commit_of res u; watchbugzilla := true |}
  else dict_get u res.
Proof.
  unfold add_watcher, commit_of.
  destruct (x =? u)%string eqn:E.
  - apply String.eqb_eq in E. subst x.
    destruct (dict_get u res); rewrite dict_get_set, String.eqb_refl; reflexivity.
  - destruct (dict_get x res); rewrite dict_get_set, E; reflexivity.
Qed.

Lemma add_watchers_get (users : list string) (u : string) :
  forall res,
    dict_get u (fold_left add_watcher users res) =
    if is_watcher users u
    then Some {| commit := commit_of res u; watchbugzilla := true |}
    else dict_get u res.
Proof.
  unfold is_watcher.
  induction users as [|x users IH]; intros res; [reflexivity|].
  cbn [fold_left existsb]. rewrite IH, add_watcher_get, (String.eqb_sym u x).
  assert (Hc : commit_of (add_watcher res x) u = commit_of res u).
  { unfold commit_of at 1. rewrite add_watcher_get.
    destruct (x =? u)%string; reflexivity. }
  rewrite Hc.
  destruct (x =? u)%string; destruct (existsb (String.eqb u) users); reflexivity.
Qed.

Lemma fold_add_owner_NoDup (users : list string) :
  forall res, NoDup (dict_keys res) -> NoDup (dict_keys (fold_left add_owner users res)).
Proof.
  induction users as [|x users IH]; intros res H; [exact H|].
  cbn [fold_left]. apply IH. now apply dict_set_NoDup.
Qed.

Lemma fold_add_group_NoDup (groups : list (string * list string)) :
  forall res, NoDup (dict_keys res) -> NoDup (dict_keys (fold_left add_group groups res)).
Proof.
  induction groups as [|g groups IH]; intros res H; [exact H|].
  cbn [fold_left]. apply IH. now apply fold_add_owner_NoDup.
Qed.

Lemma fold_add_watcher_NoDup (users : list string) :
  forall res, NoDup (dict_keys res) -> NoDup (dict_keys (fold_left add_watcher users res)).
Proof.
  induction users as [|x users IH]; intros res H; [exact H|].
  cbn [fold_left]. apply IH. unfold add_watcher.
  destruct (dict_get x res); now apply dict_set_NoDup.
Qed.

(** X18: when both requests succeed, [get_component_acls] returns one item
    for every user who is in an access group or watches, and for no one
    else: the user has [commit] exactly when in an access group, and
    [watchbugzilla] exactly when among the watchers. Nothing is logged. *)
Theorem component_acls_merge (urlopen : string -> http pagure_json)
    (pagure_url component : string) (acls body : pagure_json)
    (groups : list (string * list string)) (users : list string) :
  urlopen (pagure_url ++ "/rpms/" ++ component) = Response acls ->
  access_users acls = Some groups ->
  urlopen ((pagure_url ++ "/rpms/" ++ component) ++ "/watchers") = Response body ->
  watchers body = Some users ->
  exists res,
    acls_outcome (get_component_acls urlopen pagure_url component) = Ok res /\
    acls_errors (get_component_acls urlopen pagure_url component) = [] /\
    NoDup (dict_keys res) /\
    forall user,
      dict_get user res =
      if is_owner groups user || is_watcher users user
      then Some {| commit := is_owner groups user; watchbugzilla := is_watcher users user |}
      else None.
Proof.
  intros H1 H2 H3 H4. unfold get_component_acls. cbv zeta.
  rewrite H1, H2, H3, H4. cbn [acls_outcome acls_errors].
  eexists. split; [reflexivity|]. split; [reflexivity|]. split.
  - apply fold_add_watcher_NoDup, fold_add_group_NoDup. constructor.
  - intros user. rewrite add_watchers_get. unfold commit_of. rewrite add_groups_get.
    cbn [dict_get].
    destruct (is_owner groups user), (is_watcher users user); reflexivity.
Qed.

Lemma component_acls_merge_witness :
  exists res,
    acls_outcome (get_component_acls sample_pagure "https://src" "bash") = Ok res /\
    acls_errors (get_component_acls sample_pagure "https://src" "bash") = [] /\
    NoDup (dict_keys res) /\
    forall user,
      dict_get user res =
      if is_owner [("owner", ["alice"]); ("commit", ["bob"; "alice"])] user
         || is_watcher ["carol"; "bob"] user
      then Some {| commit := is_owner [("owner", ["alice"]); ("commit", ["bob"; "alice"])] user;
                   watchbugzilla := is_watcher ["carol"; "bob"] user |}
      else None.
Proof.
  exact (component_acls_merge sample_pagure "https://src" "bash" _ _ _ _
           eq_refl eq_refl eq_refl eq_refl).
Defined.

(** X19: an [HTTPError] is logged and does not raise. On the first request
    the result is the empty dict and the watchers are not asked for; on the
    second it is the result so far: the users of the access groups, with
    [commit] and without [watchbugzilla]. *)
Theorem component_acls_http_errors (urlopen : string -> http pagure_json)
    (pagure_url component ex : string) :
  let url := pagure_url ++ "/rpms/" ++ component in
  (urlopen url = HTTPError ex ->
   get_component_acls urlopen pagure_url component =
   {| acls_outcome := Ok [];
      acls_errors := [acls_error "package information" component ex url];
      acls_requests := [url] |}) /\
  (forall acls groups,
     urlopen url = Response acls -> access_users acls = Some groups ->
     urlopen (url ++ "/watchers") = HTTPError ex ->
     exists res,
       get_component_acls urlopen pagure_url component =
       {| acls_outcome := Ok res;
          acls_errors := [acls_error "watchers" component ex (url ++ "/watchers")];
          acls_requests := [url; url ++ "/watchers"] |} /\
       forall user,
         dict_get user res = if is_owner groups user then Some owner_acl else None).
Proof.
  cbv zeta. split.
  - intros H. unfold get_component_acls. cbv zeta. now rewrite H.
  - intros acls groups H1 H2 H3. unfold get_component_acls. cbv zeta.
    rewrite H1, H2, H3. eexists. split; [reflexivity|].
    intros user. now rewrite add_groups_get.
Qed.

Lemma component_acls_http_errors_witness :
  acls_requests (get_component_acls sample_pagure "https://src" "zsh") = ["https://src/rpms/zsh"] /\
  exists res,
    acls_outcome (get_component_acls sample_pagure_no_watchers "https://src" "bash") = Ok res /\
    dict_get "bob" res = Some owner_acl.
Proof.
  split.
  - rewrite (proj1 (component_acls_http_errors sample_pagure "https://src" "zsh"
                      "HTTP Error 404: Not Found") eq_refl).
    reflexivity.
  - destruct (proj2 (component_acls_http_errors sample_pagure_no_watchers "https://src" "bash"
                       "HTTP Error 500: Internal Server Error") _ _ eq_refl eq_refl eq_refl)
      as (res & E & Hget).
    exists res. split; [now rewrite E|]. now rewrite Hget.
Defined.

(** * Builds whose completion time does not parse *)

Lemma strptime_raises (s : string) (e : exn) :
  Strptime.strptime s = Raise e -> exists msg, e = ValueError msg.
Proof.
  unfold Strptime.strptime.
  destruct (Strptime.fields s) as [|[t rest] l].
  - intros H. injection H as <-. eexists. reflexivity.
  - destruct rest.
    + destruct (Strptime.valid t); [discriminate|].
      intros H. injection H as <-. eexists. reflexivity.
    + intros H. injection H as <-. eexists. reflexivity.
Qed.

Lemma map_result_raise {A B : Type} (f : A -> result B) (l : list A) (e : exn) :
  map_result f l = Raise e -> exists x, In x l /\ f x = Raise e.
Proof.
  induction l as [|x l IH]; simpl; [discriminate|].
  destruct (f x) as [y|e'] eqn:E.
  - destruct (map_result f l) as [ys|e'']; [discriminate|].
    intros H. injection H as ->. destruct (IH eq_refl) as (x' & Hin & Hx').
    exists x'. auto.
  - intros H. injection H as ->. exists x. auto.
Qed.

Lemma map_result_ok_each {A B : Type} (f : A -> result B) (l : list A) (out : list B) :
  map_result f l = Ok out -> forall x, In x l -> exists y, f x = Ok y.
Proof.
  revert out. induction l as [|x l IH]; simpl; intros out H x' Hin; [contradiction|].
  destruct (f x) as [y|e] eqn:E; [|discriminate].
  destruct (map_result f l) as [ys|e] eqn:El; [|discriminate].
  destruct Hin as [<-|Hin]; [eauto|exact (IH ys eq_refl x' Hin)].
Qed.

(** X20: the merger returns only when every completion time of both lists
    parses with the format, fraction of a second included; one record whose
    completion time does not parse makes the whole call raise [ValueError],
    and no build is returned. *)
Theorem merge_builds_unparsed (builds_release builds_updates : list koji_build) :
  (forall out,
     merge_builds builds_release builds_updates = Ok out ->
     forall b, In b (builds_release ++ builds_updates) ->
               exists t, Strptime.strptime (b_completion_time b) = Ok t) /\
  (forall b,
     In b (builds_release ++ builds_updates) ->
     (forall t, Strptime.strptime (b_completion_time b) <> Ok t) ->
     exists msg, merge_builds builds_release builds_updates = Raise (ValueError msg)).
Proof.
  assert (Hok : forall out,
             merge_builds builds_release builds_updates = Ok out ->
             forall b, In b (builds_release ++ builds_updates) ->
                       exists t, Strptime.strptime (b_completion_time b) = Ok t).
  { intros out H b Hb. unfold merge_builds in H.
    apply (Permutation_in _ (Permutation_sym (sorted_reverse_perm b_completion_time _))) in Hb.
    destruct (map_result_ok_each _ _ _ H b Hb) as (o & Ho).
    unfold normalize_build in Ho.
    destruct (Strptime.strptime (b_completion_time b)) as [t|e]; [eauto|discriminate]. }
  split; [exact Hok|].
  intros b Hb Hno.
  destruct (merge_builds builds_release builds_updates) as [out|e] eqn:E.
  - destruct (Hok out eq_refl b Hb) as (t & Ht). now destruct (Hno t).
  - unfold merge_builds in E. apply map_result_raise in E as (x & _ & Hx).
    unfold normalize_build in Hx.
    destruct (Strptime.strptime (b_completion_time x)) as [t|e'] eqn:Es; [discriminate|].
    injection Hx as ->. destruct (strptime_raises _ _ Es) as (msg & ->). now exists msg.
Qed.

Lemma merge_builds_unparsed_witness :
  exists msg, merge_builds [build_january; build_whole_second] [build_february]
              = Raise (ValueError msg).
Proof.
  apply (proj2 (merge_builds_unparsed [build_january; build_whole_second] [build_february])
           build_whole_second).
  - simpl. auto.
  - intros t. discriminate.
Defined.

(** * Release numbers *)

Lemma string_of_uint_decimal (d : Decimal.uint) :
  PyStr.all_chars PyStr.is_decimal_char (NilEmpty.string_of_uint d) = true.
Proof. induction d; simpl; auto. Qed.

Lemma decimal_value_acc (d : Decimal.uint) :
  forall acc : positive,
    PyStr.decimal_value (Z.pos acc) (NilEmpty.string_of_uint d) =
    Z.pos (Pos.of_uint_acc d acc).
Proof.
  induction d; intros acc; cbn [NilEmpty.string_of_uint PyStr.decimal_value Pos.of_uint_acc];
    [reflexivity|..];
    match goal with
    | |- PyStr.decimal_value ?v _ = Z.pos (Pos.of_uint_acc _ ?a) =>
        replace v with (Z.pos a)
          by (match goal with
              | |- context [PyStr.digit_value ?c] =>
                  let k := eval vm_compute in (PyStr.digit_value c) in
                  change (PyStr.digit_value c) with k
              end; lia)
    end; apply IHd.
Qed.

Lemma decimal_value_of_uint (d : Decimal.uint) :
  PyStr.decimal_value 0 (NilEmpty.string_of_uint d) = Z.of_N (Pos.of_uint d).
Proof.
  induction d; cbn [NilEmpty.string_of_uint PyStr.decimal_value Pos.of_uint];
    [reflexivity|exact IHd|..];
    match goal with
    | |- PyStr.decimal_value ?v _ = Z.of_N (N.pos (Pos.of_uint_acc _ ?a)) =>
        replace v with (Z.pos a)
          by (match goal with
              | |- context [PyStr.digit_value ?c] =>
                  let k := eval vm_compute in (PyStr.digit_value c) in
                  change (PyStr.digit_value c) with k
              end; lia)
    end; apply decimal_value_acc.
Qed.

(** [int(str(n)) == n] for a natural number, and [str(n)] is made of
    decimal digits. *)
Lemma str_of_int_decimal (n : Z) :
  0 <= n ->
  PyStr.isdecimal (PyStr.str_of_int n) = true /\
  PyStr.decimal_value 0 (PyStr.str_of_int n) = n.
Proof.
  intros Hn. destruct n as [|p|p]; [split; reflexivity| |lia].
  unfold PyStr.str_of_int, PyStr.isdecimal. cbn [Z.to_int NilZero.string_of_int].
  unfold NilZero.string_of_uint.
  pose proof (Unsigned.to_uint_nonnil p) as Hnil.
  destruct (Pos.to_uint p) eqn:E; [contradiction|..];
    rewrite <- E; (split;
      [ apply andb_true_iff; split;
        [rewrite E; reflexivity|apply string_of_uint_decimal]
      | rewrite decimal_value_of_uint, DecimalPos.Unsigned.of_to; reflexivity ]).
Qed.

Lemma str_of_int_inj (n m : Z) : PyStr.str_of_int n = PyStr.str_of_int m -> n = m.
Proof.
  unfold PyStr.str_of_int. intros H.
  assert (Hn : forall z, NilZero.int_of_string (NilZero.string_of_int (Z.to_int z))
                         = Some (Z.to_int z)).
  { intros z. apply NilZero.isi; destruct z; simpl; try discriminate;
      intros E; injection E as E; exact (Unsigned.to_uint_nonnil _ E). }
  pose proof (Hn n) as H1. rewrite H, Hn in H1. injection H1 as H1.
  rewrite <- (DecimalZ.of_to n), <- (DecimalZ.of_to m). now rewrite H1.
Qed.

(** X21: for an [int] release within the interpreter's limit of digits the
    branch goes by the number: FC-n below 6, fc6 for 6, fn above; a negative
    number is not a valid release and raises [FafError] with its text.
    Beyond the limit [str(release)] raises [ValueError]. *)
Theorem release_to_branch_int (n : Z) :
  ((String.length (PyStr.str_of_int (Z.abs n)) <= PyStr.max_str_digits)%nat ->
   _release_to_branch (RelInt n) =
   if n <? 0
   then Raise (FafError (PyStr.str_of_int n ++ " is not a valid Fedora version"))
   else Ok (branch_of_number n)) /\
  ((PyStr.max_str_digits < String.length (PyStr.str_of_int (Z.abs n)))%nat ->
   exists msg, _release_to_branch (RelInt n) = Raise (ValueError msg)).
Proof.
  split.
  - intros Hlen. unfold _release_to_branch. cbn [release_text]. unfold PyStr.str.
    pose proof Hlen as Hleb. apply Nat.leb_le in Hleb. rewrite Hleb.
    destruct (n <? 0) eqn:Hneg.
    + destruct n as [|p|p]; try discriminate.
      unfold PyStr.str_of_int. cbn [Z.to_int NilZero.string_of_int].
      reflexivity.
    + apply Z.ltb_ge in Hneg.
      destruct (str_of_int_decimal n Hneg) as [Hd Hv].
      destruct (release_to_branch_table (PyStr.str_of_int n)) as (_ & H & _).
      rewrite Z.abs_eq in Hlen by exact Hneg.
      specialize (H Hd Hlen). cbv zeta in H. rewrite Hv in H.
      unfold _release_to_branch in H. cbn [release_text] in H. exact H.
  - intros Hlen. unfold _release_to_branch. cbn [release_text]. unfold PyStr.str.
    apply Nat.leb_gt in Hlen. rewrite Hlen. eexists. reflexivity.
Qed.

Lemma release_to_branch_int_witness :
  _release_to_branch (RelInt 20) =
  if 20 <? 0
  then Raise (FafError (PyStr.str_of_int 20 ++ " is not a valid Fedora version"))
  else Ok (branch_of_number 20).
Proof.
  apply (proj1 (release_to_branch_int 20)). unfold PyStr.max_str_digits. simpl. lia.
Defined.

Lemma branch_of_number_inj (n m : Z) :
  0 <= n -> 0 <= m -> branch_of_number n = branch_of_number m -> n = m.
Proof.
  intros Hn Hm. unfold branch_of_number.
  destruct (str_of_int_decimal n Hn) as [Dn _].
  destruct (str_of_int_decimal m Hm) as [Dm _].
  destruct (n <? 6) eqn:N6; destruct (m <? 6) eqn:M6;
    try (destruct (n =? 6) eqn:N; [apply Z.eqb_eq in N|]);
    try (destruct (m =? 6) eqn:M; [apply Z.eqb_eq in M|]);
    cbn [append]; intros H; try discriminate H; try lia.
  - injection H as H. now apply str_of_int_inj.
  - injection H as H. rewrite <- H in Dm. discriminate Dm.
  - injection H as H. rewrite H in Dn. discriminate Dn.
  - injection H as H. now apply str_of_int_inj.
Qed.

Lemma decimal_value_nonneg (s : string) :
  forall acc, 0 <= acc -> PyStr.all_chars PyStr.is_decimal_char s = true ->
              0 <= PyStr.decimal_value acc s.
Proof.
  induction s as [|c s IH]; intros acc Hacc H; [exact Hacc|].
  cbn [PyStr.all_chars PyStr.decimal_value] in *.
  apply andb_true_iff in H as [Hc Hs]. apply IH; [|exact Hs].
  unfold PyStr.is_decimal_char, PyStr.in_range in Hc.
  apply andb_true_iff in Hc as [Hlo _]. apply N.leb_le in Hlo.
  unfold PyStr.digit_value. lia.
Qed.

(** A text of 4301 decimal digits passes [isdigit] and is beyond the limit
    of [int()]: the call leaves through [ValueError]. *)
Example release_to_branch_beyond_limit :
  PyStr.isdecimal (ones 4301) = true /\
  exists msg, _release_to_branch (RelStr (ones 4301)) = Raise (ValueError msg).
Proof.
  split; [vm_compute; reflexivity|].
  eexists. vm_compute. reflexivity.
Qed.

(** X22: releases written in decimal digits, within the interpreter's limit
    of digits, share a branch only when they are the same number: leading
    zeros do not matter, and two different release numbers never map to the
    same branch. *)
Theorem release_to_branch_injective (s t : string) :
  PyStr.isdecimal s = true -> PyStr.isdecimal t = true ->
  (String.length s <= PyStr.max_str_digits)%nat ->
  (String.length t <= PyStr.max_str_digits)%nat ->
  (_release_to_branch (RelStr s) = _release_to_branch (RelStr t) <->
   PyStr.decimal_value 0 s = PyStr.decimal_value 0 t).
Proof.
  intros Hs Ht Ls Lt.
  destruct (release_to_branch_table s) as (_ & Es & _).
  destruct (release_to_branch_table t) as (_ & Et & _).
  specialize (Es Hs Ls). specialize (Et Ht Lt). cbv zeta in Es, Et.
  fold (branch_of_number (PyStr.decimal_value 0 s)) in Es.
  fold (branch_of_number (PyStr.decimal_value 0 t)) in Et.
  rewrite Es, Et. split.
  - intros H. injection H as H. apply branch_of_number_inj; [| |exact H];
      apply decimal_value_nonneg; try lia.
    + unfold PyStr.isdecimal in Hs. now apply andb_true_iff in Hs as [_ Hs].
    + unfold PyStr.isdecimal in Ht. now apply andb_true_iff in Ht as [_ Ht].
  - now intros ->.
Qed.

Lemma release_to_branch_injective_witness :
  _release_to_branch (RelStr "07") = _release_to_branch (RelStr "7") <->
  PyStr.decimal_value 0 "07" = PyStr.decimal_value 0 "7".
Proof.
  apply (release_to_branch_injective "07" "7" eq_refl eq_refl);
    unfold PyStr.max_str_digits; simpl; lia.
Defined.
